(** * form-api: a shallow embedding of the Form / Field domain model

    The development follows the modular sources of the repository:
    [util.ts], [field.ts], [fieldTypes/textField.ts],
    [fieldTypes/selectField.ts], [fieldTypes/fileField.ts] and [index.ts]
    (class [Form]).  The
    repository also keeps two earlier single-file drafts of the same classes
    (without the guard of [setLinkedFieldCondition], without the archived
    check of [addField], and with [delete] in [removeChoice]); they are
    superseded by the modular sources and are not embedded.

    Conventions of the embedding.
    - A JavaScript object that is mutated through a reference lives in a
      store indexed by locations; a method receives the store and the
      locations of [this] and of its object arguments, and returns the new
      store.  Two locations may hold objects with the same [id].  Objects
      do not share their [data] record: the constructors copy it, and the
      methods that replace it build a new one.
    - An optional property ([p?: T]) is an [option]; [None] stands for
      [undefined] (a missing key and a key bound to [undefined] read the
      same).
    - A method that writes returns its outcome together with the state it
      leaves behind: [Ok v] for a normal return, [Throw msg] for
      [throw new Error(msg)].  The state is returned in both cases, since a
      JavaScript exception undoes nothing.
    - A JavaScript [number] is an integer of [Z] or [NaN]; fractions are not
      modelled (in the conditionals of the sources they behave like a nonzero
      integer).  The length of a string is its number of code units. *)

From Stdlib Require Import List String ZArith Bool Lia.
Import ListNotations.

Local Open Scope string_scope.
Local Open Scope Z_scope.

(** ** util.ts *)

Definition ID := string.

(** ** Outcomes of a method call *)

Inductive result (A : Type) : Type :=
| Ok (a : A)
| Throw (message : string).

Arguments Ok {A} a.
Arguments Throw {A} message.

(** The outcome of a call and the state after it. *)
Definition outcome (S A : Type) : Type := (result A * S)%type.

(** ** Object stores *)

Definition loc := nat.

Section Store.
Context {A : Type}.

Definition store := loc -> A.

Definition upd (h : store) (r : loc) (v : A) : store :=
  fun r' => if Nat.eqb r' r then v else h r'.
End Store.

Arguments store A : clear implicits.

(** ** The fragments of the JavaScript runtime the sources rely on *)

(** [Array.prototype.findIndex]: the index of the first element satisfying
    the predicate, [-1] when there is none. *)
Fixpoint findIndexFrom {A} (p : A -> bool) (i : Z) (l : list A) : Z :=
  match l with
  | [] => -1
  | x :: t => if p x then i else findIndexFrom p (i + 1) t
  end.

Definition findIndex {A} (p : A -> bool) (l : list A) : Z :=
  findIndexFrom p 0 l.

(** Runtime values, as far as [typeof] and truthiness tell them apart. *)
Inductive JsValue : Type :=
| JsUndefined
| JsNull
| JsNumber (n : Z)
| JsNaN
| JsString (s : string)
| JsBoolean (b : bool)
| JsObject.

Definition typeof (v : JsValue) : string :=
  match v with
  | JsUndefined => "undefined"
  | JsNull => "object"
  | JsNumber _ => "number"
  | JsNaN => "number"
  | JsString _ => "string"
  | JsBoolean _ => "boolean"
  | JsObject => "object"
  end.

(** The value of [v] in a boolean context ([v && ...], [v ? ... : ...]). *)
Definition truthy (v : JsValue) : bool :=
  match v with
  | JsUndefined | JsNull | JsNaN => false
  | JsNumber n => negb (n =? 0)
  | JsString s => negb (s =? "")%string
  | JsBoolean b => b
  | JsObject => true
  end.

(** The number, string or boolean a value is; [asNumber] is consulted for
    truthy values only, which excludes [NaN]. *)
Definition asNumber (v : JsValue) : option Z :=
  match v with JsNumber n => Some n | _ => None end.

Definition asString (v : JsValue) : option string :=
  match v with JsString s => Some s | _ => None end.

Definition asBoolean (v : JsValue) : option bool :=
  match v with JsBoolean b => Some b | _ => None end.

(** A key of an object literal that is spread into another object: the key
    is either missing, or bound to a value (which may be [undefined]). *)
Inductive spreadKey (A : Type) : Type :=
| Absent
| Present (v : option A).

Arguments Absent {A}.
Arguments Present {A} v.

(** [{ ...{k: old}, ...{k?: new} }.k] *)
Definition spreadOver {A} (old : option A) (k : spreadKey A) : option A :=
  match k with
  | Absent => old
  | Present v => v
  end.

(** [a === b] for an optional string against a string. *)
Definition optIdEq (a : option ID) (b : ID) : bool :=
  match a with
  | Some a' => (a' =? b)%string
  | None => false
  end.

(** ** field.ts *)

Module Field.

Inductive FieldType := text | boolean | select | file.

Module Data.
Record t := mk {
    id : ID;
    formId : ID;
    fieldPropertiesId : ID;
    name : string;
    label : string;
    description : option string;
    archived : bool;
    type : FieldType;
    required : option bool;
    linkedFieldId : option ID;
    hasValue : option bool;
    matchValueStr : option string;
    matchValueInt : option Z;
    matchValueBool : option bool;
  }.
End Data.

(** The base-class view of a field object: every variant carries [data],
    and [Form] and the condition logic touch nothing else. *)
Record t := mk { data : Data.t }.

Definition heap := store t.

(** [FieldConditionOptions<MatchValueT>] *)
Record FieldConditionOptions := mkCondition {
  hasValue : spreadKey bool;
  matchValue : JsValue;
}.

Definition id (this : t) : ID := Data.id (data this).

Definition archived (this : t) : bool := Data.archived (data this).

Definition setArchived (this : t) : t :=
  let d := data this in
  {| data :=
      {| Data.id := Data.id d;
         Data.formId := Data.formId d;
         Data.fieldPropertiesId := Data.fieldPropertiesId d;
         Data.name := Data.name d;
         Data.label := Data.label d;
         Data.description := Data.description d;
         Data.archived := true;
         Data.type := Data.type d;
         Data.required := Data.required d;
         Data.linkedFieldId := Data.linkedFieldId d;
         Data.hasValue := Data.hasValue d;
         Data.matchValueStr := Data.matchValueStr d;
         Data.matchValueInt := Data.matchValueInt d;
         Data.matchValueBool := Data.matchValueBool d |} |}.

Definition clearLinkedFieldCondition (this : t) : t :=
  let d := data this in
  {| data :=
      {| Data.id := Data.id d;
         Data.formId := Data.formId d;
         Data.fieldPropertiesId := Data.fieldPropertiesId d;
         Data.name := Data.name d;
         Data.label := Data.label d;
         Data.description := Data.description d;
         Data.archived := Data.archived d;
         Data.type := Data.type d;
         Data.required := Data.required d;
         Data.linkedFieldId := None;
         Data.hasValue := None;
         Data.matchValueStr := None;
         Data.matchValueInt := None;
         Data.matchValueBool := None |} |}.

(** The guard of [setLinkedFieldCondition]: the condition of its [throw]. *)
Definition conditionRejected (this linkedField : t) : bool :=
  negb (Data.formId (data this) =? Data.formId (data linkedField))%string
  || archived linkedField.

Definition conditionError : string :=
  "Cannot set linked field condition on an archived field, or fields in another form".

Definition setLinkedFieldCondition
    (h : heap) (this linkedField : loc) (condition : FieldConditionOptions)
  : outcome heap unit :=
  if conditionRejected (h this) (h linkedField) then (Throw conditionError, h)
  else
    let matchValue := matchValue condition in
    let conditionProperties := hasValue condition in
    let matchValueInt :=
      if truthy matchValue && (typeof matchValue =? "number")%string
      then asNumber matchValue else None in
    let matchValueStr :=
      if truthy matchValue && (typeof matchValue =? "string")%string
      then asString matchValue else None in
    let matchValueBool :=
      if truthy matchValue && (typeof matchValue =? "boolean")%string
      then asBoolean matchValue else None in
    let d := data (h this) in
    (Ok tt,
     upd h this
          {| data :=
              {| Data.id := Data.id d;
                 Data.formId := Data.formId d;
                 Data.fieldPropertiesId := Data.fieldPropertiesId d;
                 Data.name := Data.name d;
                 Data.label := Data.label d;
                 Data.description := Data.description d;
                 Data.archived := Data.archived d;
                 Data.type := Data.type d;
                 Data.required := Data.required d;
                 Data.linkedFieldId := Some (id (h linkedField));
                 Data.hasValue := spreadOver (Data.hasValue d) conditionProperties;
                 Data.matchValueStr := matchValueStr;
                 Data.matchValueInt := matchValueInt;
                 Data.matchValueBool := matchValueBool |} |}).

(** The five properties that make up the linked-field condition. *)
Record Condition := mkCond {
  c_linkedFieldId : option ID;
  c_hasValue : option bool;
  c_matchValueStr : option string;
  c_matchValueInt : option Z;
  c_matchValueBool : option bool;
}.

Definition conditionOf (this : t) : Condition :=
  let d := data this in
  {| c_linkedFieldId := Data.linkedFieldId d;
     c_hasValue := Data.hasValue d;
     c_matchValueStr := Data.matchValueStr d;
     c_matchValueInt := Data.matchValueInt d;
     c_matchValueBool := Data.matchValueBool d |}.

Definition noCondition : Condition :=
  {| c_linkedFieldId := None;
     c_hasValue := None;
     c_matchValueStr := None;
     c_matchValueInt := None;
     c_matchValueBool := None |}.

End Field.

(** ** fieldTypes/textField.ts *)

Module TextField.

Inductive Format := text | text_box | email | url.

Record Properties := mkProperties {
  format : Format;
  minLength : option Z;
  maxLength : option Z;
  placeholder : option string;
  defaultValue : option string;
}.

Record t := mk {
  data : Field.Data.t;
  properties : Properties;
}.

(** [value.length] *)
Definition length (value : string) : Z := Z.of_nat (String.length value).

(** Validates a text field value against the validation options; the format
    is ignored. *)
Definition isValidValue (this : t) (value : string) : bool :=
  let minLength := minLength (properties this) in
  let maxLength := maxLength (properties this) in
  (* Too short: *)
  if match minLength with Some m => length value <? m | None => false end
  then false
  (* Too long: *)
  else if match maxLength with Some M => length value >? M | None => false end
  then false
  else true.

Definition setDefaultError : string :=
  "Cannot set default value for TextField; default does not pass validation".

Definition setDefault (this : t) (defaultValue : string) : outcome t unit :=
  if negb (isValidValue this defaultValue) then (Throw setDefaultError, this)
  else
    let p := properties this in
    (Ok tt,
     {| data := data this;
        properties :=
          {| format := format p;
             minLength := minLength p;
             maxLength := maxLength p;
             placeholder := placeholder p;
             defaultValue := Some defaultValue |} |}).

End TextField.

(** ** fieldTypes/selectField.ts *)

Module SelectFieldChoice.

Module Data.
Record t := mk {
  id : ID;
  fieldPropertiesId : ID;
  label : string;
  archived : bool;
}.
End Data.

Record t := mk { data : Data.t }.

Definition heap := store t.

Definition id (this : t) : ID := Data.id (data this).

Definition archived (this : t) : bool := Data.archived (data this).

Definition setArchived (this : t) : t :=
  let d := data this in
  {| data :=
      {| Data.id := Data.id d;
         Data.fieldPropertiesId := Data.fieldPropertiesId d;
         Data.label := Data.label d;
         Data.archived := true |} |}.

End SelectFieldChoice.

Module SelectField.

Record Properties := mkProperties {
  defaultChoiceId : option ID;
}.

(** [choices] holds references: the array and the caller share the choice
    objects. *)
Record t := mk {
  data : Field.Data.t;
  properties : Properties;
  choices : list loc;
}.

Definition id (this : t) : ID := Field.Data.id (data this).

Record GetChoicesOptions := mkOptions {
  includeArchived : option bool;
}.

(** What the methods of a select field can write: the choice objects and
    the field itself. *)
Definition state : Type := (SelectFieldChoice.heap * t)%type.

Definition getChoiceIndexById
    (h : SelectFieldChoice.heap) (this : t) (choiceId : ID) : Z :=
  findIndex (fun choice => (SelectFieldChoice.id (h choice) =? choiceId)%string)
            (choices this).

Definition hasChoice (h : SelectFieldChoice.heap) (this : t) (choice : loc) : bool :=
  let choiceIdx := getChoiceIndexById h this (SelectFieldChoice.id (h choice)) in
  negb (choiceIdx =? -1).

Definition setDefaultChoice
    (h : SelectFieldChoice.heap) (this : t) (defaultChoice : loc)
  : outcome state unit :=
  let choiceIdx := getChoiceIndexById h this (SelectFieldChoice.id (h defaultChoice)) in
  if choiceIdx =? -1 then
    (Throw ("Tried to set SelectChoice(" ++ SelectFieldChoice.id (h defaultChoice)
            ++ ") as default, does not belong to SelectField(" ++ id this ++ ")"),
     (h, this))
  else if SelectFieldChoice.archived (h defaultChoice) then
    (Throw ("Tried to set SelectChoice(" ++ SelectFieldChoice.id (h defaultChoice)
            ++ ") as default, but is archived"),
     (h, this))
  else
    (Ok tt,
     (h, {| data := data this;
            properties :=
              {| defaultChoiceId := Some (SelectFieldChoice.id (h defaultChoice)) |};
            choices := choices this |})).

Definition getChoices
    (h : SelectFieldChoice.heap) (this : t) (options : GetChoicesOptions) : list loc :=
  match includeArchived options with
  | Some true => choices this
  | _ => filter (fun choice => negb (SelectFieldChoice.archived (h choice))) (choices this)
  end.

(** [addChoice] pushes the reference and returns it. *)
Definition addChoice
    (h : SelectFieldChoice.heap) (this : t) (choice : loc)
  : outcome state loc :=
  if SelectFieldChoice.archived (h choice) then
    (Throw ("invariant: adding SelectFieldChoice(" ++ SelectFieldChoice.id (h choice)
            ++ ") to SelectField(" ++ id this ++ "), but is already archived"),
     (h, this))
  else
    (Ok choice,
     (h, {| data := data this;
            properties := properties this;
            choices := (choices this ++ [choice])%list |})).

(** [removeChoice] tests membership by id, then archives the object it was
    handed. *)
Definition removeChoice
    (h : SelectFieldChoice.heap) (this : t) (choice : loc)
  : outcome state unit :=
  if negb (hasChoice h this choice) then
    (Throw ("Tried to archive SelectChoice(" ++ SelectFieldChoice.id (h choice)
            ++ "), does not belong to SelectField(" ++ id this ++ ")"),
     (h, this))
  else
    (Ok tt, (upd h choice (SelectFieldChoice.setArchived (h choice)), this)).

Definition isValidValue
    (h : SelectFieldChoice.heap) (this : t) (choiceId : string) : bool :=
  let choiceIdx := getChoiceIndexById h this choiceId in
  choiceIdx =? -1.

End SelectField.

(** ** index.ts *)

Module Form.

Module Data.
Record t := mk {
  id : ID;
  title : string;
  description : option string;
  archived : bool;
}.
End Data.

(** [fields] holds references to the field objects. *)
Record t := mk {
  data : Data.t;
  fields : list loc;
}.

Record GetFieldsOptions := mkOptions {
  includeArchived : option bool;
}.

(** [getFields()] is [getFields({})]. *)
Definition noOptions : GetFieldsOptions := {| includeArchived := None |}.

(** What the methods of a form can write: the field objects and the form
    itself. *)
Definition state : Type := (Field.heap * t)%type.

Definition id (this : t) : ID := Data.id (data this).

Definition getFieldIndexById (h : Field.heap) (this : t) (fieldId : ID) : Z :=
  findIndex (fun field => (Field.id (h field) =? fieldId)%string) (fields this).

Definition hasField (h : Field.heap) (this : t) (field : loc) : bool :=
  let fieldIdx := getFieldIndexById h this (Field.id (h field)) in
  negb (fieldIdx =? -1).

(** One turn of the [forEach] of [removeField]. *)
Definition severCondition (field : loc) (h : Field.heap) (relatedField : loc)
  : Field.heap :=
  if optIdEq (Field.Data.linkedFieldId (Field.data (h relatedField)))
             (Field.id (h field))
  then upd h relatedField (Field.clearLinkedFieldCondition (h relatedField))
  else h.

(** Soft-removes a field from this form by marking it as archived, and
    severs the conditions other fields have on it. *)
Definition removeField (h : Field.heap) (this : t) (field : loc)
  : outcome state unit :=
  if negb (hasField h this field) then
    (Throw ("Tried to archive Field(" ++ Field.id (h field)
            ++ "), does not belong to Form(" ++ Data.id (data this) ++ ")"),
     (h, this))
  else
    let h1 := upd h field (Field.setArchived (h field)) in
    (Ok tt, (fold_left (severCondition field) (fields this) h1, this)).

Definition addField (h : Field.heap) (this : t) (field : loc)
  : outcome state unit :=
  if Field.archived (h field) then
    (Throw ("invariant: adding Field(" ++ Field.id (h field)
            ++ ") to Form(" ++ id this ++ "), but is already archived"),
     (h, this))
  else
    (Ok tt, (h, {| data := data this; fields := (fields this ++ [field])%list |})).

(** Gets all non-archived fields for this Form, in the order they were
    added. *)
Definition getFields (h : Field.heap) (this : t) (options : GetFieldsOptions)
  : list loc :=
  match includeArchived options with
  | Some true => fields this
  | _ => filter (fun field => negb (Field.archived (h field))) (fields this)
  end.

End Form.

(** ** fieldTypes/fileField.ts *)

Module FileField.

Record Properties := mkProperties {
  maxSizeBytes : option Z;
  validExtensions : option (list string);
  validMimeTypes : option (list string);
}.

Record t := mk {
  data : Field.Data.t;
  properties : Properties;
}.

(** A [Buffer] is its sequence of bytes. *)
Definition Buffer := list Byte.byte.

(** [Buffer.byteLength(value)] *)
Definition byteLength (value : Buffer) : Z := Z.of_nat (List.length value).

(** Only the byte length is checked; extensions and mime types are not. *)
Definition isValidValue (this : t) (value : Buffer) : bool :=
  let maxSizeBytes := maxSizeBytes (properties this) in
  match maxSizeBytes with
  | Some m => byteLength value <=? m
  | None => true
  end.

End FileField.

(** ** The constructors

    [WithOptionalArchived<T>] is [T] with [archived] made optional; the
    constructors of [Field], [SelectFieldChoice] and [Form] copy the record
    and default [archived] to [false]. *)

Module Constructor.

Record FieldData := mkFieldData {
  f_id : ID;
  f_formId : ID;
  f_fieldPropertiesId : ID;
  f_name : string;
  f_label : string;
  f_description : option string;
  f_archived : option bool;
  f_type : Field.FieldType;
  f_required : option bool;
  f_linkedFieldId : option ID;
  f_hasValue : option bool;
  f_matchValueStr : option string;
  f_matchValueInt : option Z;
  f_matchValueBool : option bool;
}.

Record SelectFieldChoiceData := mkChoiceData {
  c_id : ID;
  c_fieldPropertiesId : ID;
  c_label : string;
  c_archived : option bool;
}.

Record FormData := mkFormData {
  form_id : ID;
  form_title : string;
  form_description : option string;
  form_archived : option bool;
}.

(** [typeof data.archived === 'undefined' ? false : data.archived] *)
Definition archivedOrDefault (archived : option bool) : bool :=
  match archived with
  | None => false
  | Some b => b
  end.

Definition Field (data : FieldData) : Field.t :=
  {| Field.data :=
       {| Field.Data.id := f_id data;
          Field.Data.formId := f_formId data;
          Field.Data.fieldPropertiesId := f_fieldPropertiesId data;
          Field.Data.name := f_name data;
          Field.Data.label := f_label data;
          Field.Data.description := f_description data;
          Field.Data.archived := archivedOrDefault (f_archived data);
          Field.Data.type := f_type data;
          Field.Data.required := f_required data;
          Field.Data.linkedFieldId := f_linkedFieldId data;
          Field.Data.hasValue := f_hasValue data;
          Field.Data.matchValueStr := f_matchValueStr data;
          Field.Data.matchValueInt := f_matchValueInt data;
          Field.Data.matchValueBool := f_matchValueBool data |} |}.

Definition SelectFieldChoice (data : SelectFieldChoiceData) : SelectFieldChoice.t :=
  {| SelectFieldChoice.data :=
       {| SelectFieldChoice.Data.id := c_id data;
          SelectFieldChoice.Data.fieldPropertiesId := c_fieldPropertiesId data;
          SelectFieldChoice.Data.label := c_label data;
          SelectFieldChoice.Data.archived := archivedOrDefault (c_archived data) |} |}.

(** [public choices: SelectFieldChoice[] = []] *)
Definition SelectField (data : Field.Data.t) (properties : SelectField.Properties)
  : SelectField.t :=
  {| SelectField.data := data;
     SelectField.properties := properties;
     SelectField.choices := [] |}.

(** [public fields: Field[] = []] *)
Definition Form (data : FormData) : Form.t :=
  {| Form.data :=
       {| Form.Data.id := form_id data;
          Form.Data.title := form_title data;
          Form.Data.description := form_description data;
          Form.Data.archived := archivedOrDefault (form_archived data) |};
     Form.fields := [] |}.

End Constructor.

(** ** Notions used to state the properties *)

(** What [setLinkedFieldCondition] keeps of a match value: each of the three
    conditionals [matchValue && typeof matchValue === T ? matchValue : undefined]
    evaluated by cases on the value. *)
Definition keptInt (matchValue : JsValue) : option Z :=
  match matchValue with
  | JsNumber n => if n =? 0 then None else Some n
  | _ => None
  end.

Definition keptStr (matchValue : JsValue) : option string :=
  match matchValue with
  | JsString s => if (s =? "")%string then None else Some s
  | _ => None
  end.

Definition keptBool (matchValue : JsValue) : option bool :=
  match matchValue with
  | JsBoolean true => Some true
  | _ => None
  end.

(** The documented rule for a select value, stated independently of
    [SelectField.isValidValue]: the id names a choice of this field that is
    not archived. *)
Definition namesLiveChoice
    (h : SelectFieldChoice.heap) (this : SelectField.t) (choiceId : string) : bool :=
  existsb (fun choice => (SelectFieldChoice.id (h choice) =? choiceId)%string
                         && negb (SelectFieldChoice.archived (h choice)))
          (SelectField.choices this).

(** [subseq l' l]: [l'] is obtained from [l] by dropping elements, the
    remaining ones keeping their relative order. *)
Inductive subseq {A : Type} : list A -> list A -> Prop :=
| subseq_nil : subseq [] []
| subseq_keep x l' l : subseq l' l -> subseq (x :: l') (x :: l)
| subseq_drop x l' l : subseq l' l -> subseq l' (x :: l).

(** Number of occurrences of a reference in a sequence of references. *)
Definition occurrences (r : loc) (l : list loc) : nat :=
  count_occ Nat.eq_dec l r.

(** A form with its archived flag overwritten. *)
Definition withArchived (b : bool) (form : Form.t) : Form.t :=
  {| Form.data :=
       {| Form.Data.id := Form.Data.id (Form.data form);
          Form.Data.title := Form.Data.title (Form.data form);
          Form.Data.description := Form.Data.description (Form.data form);
          Form.Data.archived := b |};
     Form.fields := Form.fields form |}.

(** The all-or-nothing shape of a condition: without [linkedFieldId] none
    of the four other condition properties is set. *)
Definition conditionCoherent (f : Field.t) : Prop :=
  Field.Data.linkedFieldId (Field.data f) = None ->
  Field.conditionOf f = Field.noCondition.

(** Number of match properties that are set. *)
Definition isSet {A} (property : option A) : nat :=
  match property with Some _ => 1 | None => 0 end.

Definition matchPropertiesSet (f : Field.t) : nat :=
  (isSet (Field.Data.matchValueStr (Field.data f))
   + isSet (Field.Data.matchValueInt (Field.data f))
   + isSet (Field.Data.matchValueBool (Field.data f)))%nat.

(** The default of a text field, when set, passes the validation of the
    field. *)
Definition defaultIsValid (this : TextField.t) : Prop :=
  match TextField.defaultValue (TextField.properties this) with
  | Some d => TextField.isValidValue this d = true
  | None => True
  end.

(** A sequence of references without the reference [r]. *)
Definition without (r : loc) (l : list loc) : list loc :=
  filter (fun x => negb (Nat.eqb x r)) l.

(** The element of index [i] (an index as [findIndex] returns it). *)
Definition at_index {A} (l : list A) (i : Z) : option A :=
  if i <? 0 then None else nth_error l (Z.to_nat i).

(** ** Sample objects

    The form of the README: a text field [email], a boolean field
    [subscribe] shown when [email] has a value, and a select field [cadence]
    shown when [subscribe] is checked; [stray] belongs to another form. *)

Module Sample.

Definition field (id formId : ID) (type : Field.FieldType) : Field.t :=
  {| Field.data :=
       {| Field.Data.id := id;
          Field.Data.formId := formId;
          Field.Data.fieldPropertiesId := id ++ "-properties";
          Field.Data.name := id;
          Field.Data.label := id;
          Field.Data.description := None;
          Field.Data.archived := false;
          Field.Data.type := type;
          Field.Data.required := None;
          Field.Data.linkedFieldId := None;
          Field.Data.hasValue := None;
          Field.Data.matchValueStr := None;
          Field.Data.matchValueInt := None;
          Field.Data.matchValueBool := None |} |}.

Definition email : loc := 0%nat.
Definition subscribe : loc := 1%nat.
Definition cadence : loc := 2%nat.
Definition stray : loc := 3%nat.
Definition retired : loc := 4%nat.

(** Freshly constructed fields; [retired] is a field of the form that was
    constructed with [archived: true]. *)
Definition fresh : Field.heap :=
  fun r =>
    match r with
    | 0%nat => field "email" "form" Field.text
    | 1%nat => field "subscribe" "form" Field.boolean
    | 2%nat => field "cadence" "form" Field.select
    | 3%nat => field "stray" "other-form" Field.text
    | _ => Field.setArchived (field "retired" "form" Field.file)
    end.

Definition form : Form.t :=
  {| Form.data :=
       {| Form.Data.id := "form";
          Form.Data.title := "Super Legit Form";
          Form.Data.description := None;
          Form.Data.archived := false |};
     Form.fields := [] |}.

Definition condition (hasValue : spreadKey bool) (matchValue : JsValue)
  : Field.FieldConditionOptions :=
  {| Field.hasValue := hasValue; Field.matchValue := matchValue |}.

(** The state after the three [addField] calls and the two
    [setLinkedFieldCondition] calls of the README. *)
Definition linked : Field.heap :=
  let h1 := snd (Field.setLinkedFieldCondition fresh subscribe email
                   (condition (Present (Some true)) JsUndefined)) in
  snd (Field.setLinkedFieldCondition h1 cadence subscribe
         (condition Absent (JsBoolean true))).

Definition filled : Form.t :=
  {| Form.data := Form.data form;
     Form.fields := [email; subscribe; cadence] |}.

(** A text field with [minLength: 3] and no default. *)
Definition shortText : TextField.t :=
  {| TextField.data := Field.data (field "nick" "form" Field.text);
     TextField.properties :=
       {| TextField.format := TextField.text;
          TextField.minLength := Some 3;
          TextField.maxLength := Some 8;
          TextField.placeholder := None;
          TextField.defaultValue := None |} |}.

Definition choice (id : ID) (archived : bool) : SelectFieldChoice.t :=
  {| SelectFieldChoice.data :=
       {| SelectFieldChoice.Data.id := id;
          SelectFieldChoice.Data.fieldPropertiesId := "cadence-properties";
          SelectFieldChoice.Data.label := id;
          SelectFieldChoice.Data.archived := archived |} |}.

(** Choice objects: [0] and [1] are live choices, [2] is a second object
    carrying the id of [0]. *)
Definition choiceObjects : SelectFieldChoice.heap :=
  fun r =>
    match r with
    | 0%nat => choice "every_day" false
    | 1%nat => choice "weekly" false
    | _ => choice "every_day" false
    end.

Definition selectField (choices : list loc) : SelectField.t :=
  {| SelectField.data := Field.data (field "cadence" "form" Field.select);
     SelectField.properties := {| SelectField.defaultChoiceId := None |};
     SelectField.choices := choices |}.

(** The record handed to [new TextField(...)] for a field that is
    constructed without [archived]. *)
Definition draft : Constructor.FieldData :=
  {| Constructor.f_id := "phone";
     Constructor.f_formId := "form";
     Constructor.f_fieldPropertiesId := "phone-properties";
     Constructor.f_name := "phone";
     Constructor.f_label := "Phone";
     Constructor.f_description := None;
     Constructor.f_archived := None;
     Constructor.f_type := Field.text;
     Constructor.f_required := None;
     Constructor.f_linkedFieldId := None;
     Constructor.f_hasValue := None;
     Constructor.f_matchValueStr := None;
     Constructor.f_matchValueInt := None;
     Constructor.f_matchValueBool := None |}.

(** A text field whose bounds exclude each other. *)
Definition impossibleText : TextField.t :=
  {| TextField.data := Field.data (field "code" "form" Field.text);
     TextField.properties :=
       {| TextField.format := TextField.text;
          TextField.minLength := Some 5;
          TextField.maxLength := Some 2;
          TextField.placeholder := None;
          TextField.defaultValue := None |} |}.

(** A file field that accepts at most [maxSizeBytes] bytes. *)
Definition fileField (maxSizeBytes : option Z) : FileField.t :=
  {| FileField.data := Field.data (field "photo" "form" Field.file);
     FileField.properties :=
       {| FileField.maxSizeBytes := maxSizeBytes;
          FileField.validExtensions := Some [".jpg"; ".png"];
          FileField.validMimeTypes := Some ["image/jpeg"; "image/png"] |} |}.

(** Choice objects of which [1] is archived. *)
Definition choiceObjectsWithArchived : SelectFieldChoice.heap :=
  fun r =>
    match r with
    | 0%nat => choice "every_day" false
    | 1%nat => choice "weekly" true
    | _ => choice "monthly" false
    end.

(** The record handed to [new SelectFieldChoice(...)] in the README. *)
Definition everyDay : Constructor.SelectFieldChoiceData :=
  {| Constructor.c_id := "every_day";
     Constructor.c_fieldPropertiesId := "cadence-properties";
     Constructor.c_label := "Every single day";
     Constructor.c_archived := None |}.

End Sample.

(** * Properties *)

(** ** Stores and [findIndex] *)

Section StoreFacts.
Context {A : Type}.
Implicit Types (h : store A) (r : loc) (v : A).

Lemma upd_same h r v : upd h r v r = v.
Proof. unfold upd. now rewrite Nat.eqb_refl. Qed.

Lemma upd_other h r v r' : r' <> r -> upd h r v r' = h r'.
Proof.
  intros Hne. unfold upd.
  destruct (Nat.eqb r' r) eqn:E; [apply Nat.eqb_eq in E; contradiction | reflexivity].
Qed.
End StoreFacts.

Section FindIndexFacts.
Context {A : Type} (p : A -> bool).

Lemma findIndexFrom_range (l : list A) : forall i,
  0 <= i ->
  findIndexFrom p i l = -1 \/
  i <= findIndexFrom p i l < i + Z.of_nat (List.length l).
Proof.
  induction l as [|x t IH]; intros i Hi; simpl.
  - now left.
  - destruct (p x).
    + right. lia.
    + destruct (IH (i + 1)) as [E | B]; [lia | now left | right; lia].
Qed.

Lemma findIndexFrom_missing (l : list A) : forall i,
  0 <= i ->
  (findIndexFrom p i l =? -1) = negb (existsb p l).
Proof.
  induction l as [|x t IH]; intros i Hi; simpl.
  - reflexivity.
  - destruct (p x); simpl.
    + apply Z.eqb_neq. lia.
    + apply IH. lia.
Qed.

Lemma findIndex_missing (l : list A) :
  (findIndex p l =? -1) = negb (existsb p l).
Proof. apply findIndexFrom_missing. lia. Qed.

Lemma findIndex_range (l : list A) :
  findIndex p l = -1 \/ 0 <= findIndex p l < Z.of_nat (List.length l).
Proof.
  destruct (findIndexFrom_range l 0) as [E | B]; [lia | now left | right].
  unfold findIndex. lia.
Qed.
End FindIndexFacts.

(** ** field.ts: linked-field conditions *)

Section FieldFacts.
Import Field.
Implicit Types (h : heap) (this linkedField : loc) (c : FieldConditionOptions).

Lemma conditionRejected_iff (f l : t) :
  conditionRejected f l = true <->
  Data.formId (data f) <> Data.formId (data l) \/ archived l = true.
Proof.
  unfold conditionRejected. rewrite orb_true_iff, negb_true_iff.
  split; intros [H | H]; auto; left.
  - now apply String.eqb_neq.
  - now apply String.eqb_neq.
Qed.

Lemma conditionAccepted_iff (f l : t) :
  conditionRejected f l = false <->
  Data.formId (data f) = Data.formId (data l) /\ archived l = false.
Proof.
  unfold conditionRejected. rewrite orb_false_iff, negb_false_iff.
  now rewrite String.eqb_eq.
Qed.

(** The three match properties as the code derives them from [matchValue]. *)
Lemma setLinkedFieldCondition_accepted h this linkedField c :
  conditionRejected (h this) (h linkedField) = false ->
  let r := setLinkedFieldCondition h this linkedField c in
  let mv := matchValue c in
  fst r = Ok tt /\
  (forall r', r' <> this -> snd r r' = h r') /\
  Data.linkedFieldId (data (snd r this)) = Some (id (h linkedField)) /\
  Data.hasValue (data (snd r this))
    = spreadOver (Data.hasValue (data (h this))) (hasValue c) /\
  Data.matchValueInt (data (snd r this)) = keptInt mv /\
  Data.matchValueStr (data (snd r this)) = keptStr mv /\
  Data.matchValueBool (data (snd r this)) = keptBool mv /\
  Data.formId (data (snd r this)) = Data.formId (data (h this)) /\
  archived (snd r this) = archived (h this) /\
  id (snd r this) = id (h this).
Proof.
  intros Hacc. unfold setLinkedFieldCondition. rewrite Hacc. cbn [fst snd].
  split; [reflexivity|].
  split; [intros r' Hne; now apply upd_other|].
  rewrite upd_same. cbn.
  repeat split; try reflexivity;
    destruct (matchValue c) as [| |n| |s|b|]; cbn; try reflexivity;
    solve [ now destruct (n =? 0)
          | now destruct (s =? "")%string
          | now destruct b ].
Qed.

Lemma setLinkedFieldCondition_rejected h this linkedField c :
  conditionRejected (h this) (h linkedField) = true ->
  setLinkedFieldCondition h this linkedField c = (Throw conditionError, h).
Proof. intros Hrej. unfold setLinkedFieldCondition. now rewrite Hrej. Qed.

(** The guard of a call is not affected by an earlier accepted call on the
    same field: it reads [formId] and [archived] only. *)
Lemma conditionRejected_after h this l1 c l2 :
  conditionRejected (h this) (h l1) = false ->
  let h1 := snd (setLinkedFieldCondition h this l1 c) in
  conditionRejected (h1 this) (h1 l2) = conditionRejected (h this) (h l2).
Proof.
  intros Hacc h1.
  destruct (setLinkedFieldCondition_accepted h this l1 c Hacc)
    as (_ & Hframe & _ & _ & _ & _ & _ & Hform & Harch & _).
  fold h1 in Hframe, Hform, Harch.
  unfold conditionRejected. rewrite Hform.
  destruct (Nat.eq_dec l2 this) as [-> | Hne].
  - now rewrite Hform, Harch.
  - now rewrite (Hframe l2 Hne).
Qed.

(** A falsy match value leaves all three match properties unset. *)
Lemma falsy_matchValue_dropped h this linkedField c :
  conditionRejected (h this) (h linkedField) = false ->
  truthy (matchValue c) = false ->
  let r := setLinkedFieldCondition h this linkedField c in
  fst r = Ok tt /\
  Data.matchValueInt (data (snd r this)) = None /\
  Data.matchValueStr (data (snd r this)) = None /\
  Data.matchValueBool (data (snd r this)) = None.
Proof.
  intros Hacc Hfalsy r.
  destruct (setLinkedFieldCondition_accepted h this linkedField c Hacc)
    as (Hok & _ & _ & _ & Hi & Hs & Hb & _).
  fold r in Hok, Hi, Hs, Hb. rewrite Hi, Hs, Hb.
  split; [exact Hok|].
  destruct (matchValue c) as [| |n| |s|b|]; cbn in *; try (repeat split; reflexivity).
  - apply negb_false_iff in Hfalsy. now rewrite Hfalsy.
  - apply negb_false_iff in Hfalsy. now rewrite Hfalsy.
  - now subst b.
Qed.

(** C2 (the code against the claim).  Evaluated on the README form: setting
    a condition with [matchValue: false] leaves [matchValueBool] unset instead
    of storing [false]; [matchValue: 0] leaves [matchValueInt] unset and
    [matchValue: ""] leaves [matchValueStr] unset, although each call
    succeeds.  A truthy value of each type is stored. *)
Theorem setLinkedFieldCondition_loses_falsy_matchValue :
  let set mv :=
    setLinkedFieldCondition Sample.fresh Sample.cadence Sample.subscribe
      (Sample.condition Absent mv) in
  (fst (set (JsBoolean false)) = Ok tt /\
   Data.matchValueBool (data (snd (set (JsBoolean false)) Sample.cadence)) = None) /\
  (fst (set (JsNumber 0)) = Ok tt /\
   Data.matchValueInt (data (snd (set (JsNumber 0)) Sample.cadence)) = None) /\
  (fst (set (JsString "")) = Ok tt /\
   Data.matchValueStr (data (snd (set (JsString "")) Sample.cadence)) = None) /\
  Data.matchValueBool (data (snd (set (JsBoolean true)) Sample.cadence)) = Some true /\
  Data.matchValueInt (data (snd (set (JsNumber 7)) Sample.cadence)) = Some 7 /\
  Data.matchValueStr (data (snd (set (JsString "yes")) Sample.cadence)) = Some "yes".
Proof. repeat split; reflexivity. Qed.

(** C4.  [setLinkedFieldCondition] throws when the linked field belongs to
    another form or is archived, and then the store of field objects is the
    one it was given (so the condition of [this] is untouched); otherwise it
    returns normally, [linkedFieldId] of [this] is the id of the linked field
    and no other field object is written. *)
Theorem setLinkedFieldCondition_guard h this linkedField c :
  let r := setLinkedFieldCondition h this linkedField c in
  (Data.formId (data (h this)) <> Data.formId (data (h linkedField))
   \/ archived (h linkedField) = true ->
   (exists message, fst r = Throw message) /\
   snd r = h /\
   conditionOf (snd r this) = conditionOf (h this)) /\
  (Data.formId (data (h this)) = Data.formId (data (h linkedField))
   /\ archived (h linkedField) = false ->
   fst r = Ok tt /\
   Data.linkedFieldId (data (snd r this)) = Some (id (h linkedField)) /\
   forall other, other <> this -> snd r other = h other).
Proof.
  intros r. split.
  - intros Hrej. apply conditionRejected_iff in Hrej.
    unfold r. rewrite (setLinkedFieldCondition_rejected _ _ _ _ Hrej). cbn.
    repeat split. now exists conditionError.
  - intros Hacc. apply conditionAccepted_iff in Hacc.
    destruct (setLinkedFieldCondition_accepted h this linkedField c Hacc)
      as (Hok & Hframe & Hlink & _).
    repeat split; assumption.
Qed.

Lemma setLinkedFieldCondition_guard_witness :
  (* a field of another form is refused *)
  ((exists message,
      fst (setLinkedFieldCondition Sample.fresh Sample.cadence Sample.stray
             (Sample.condition Absent (JsString "x"))) = Throw message) /\
   snd (setLinkedFieldCondition Sample.fresh Sample.cadence Sample.stray
          (Sample.condition Absent (JsString "x"))) = Sample.fresh /\
   conditionOf
     (snd (setLinkedFieldCondition Sample.fresh Sample.cadence Sample.stray
             (Sample.condition Absent (JsString "x"))) Sample.cadence)
   = conditionOf (Sample.fresh Sample.cadence)) /\
  (* a live field of the same form is accepted *)
  (fst (setLinkedFieldCondition Sample.fresh Sample.cadence Sample.subscribe
          (Sample.condition Absent (JsString "x"))) = Ok tt /\
   Data.linkedFieldId
     (data (snd (setLinkedFieldCondition Sample.fresh Sample.cadence Sample.subscribe
                   (Sample.condition Absent (JsString "x"))) Sample.cadence))
   = Some (id (Sample.fresh Sample.subscribe)) /\
   forall other, other <> Sample.cadence ->
     snd (setLinkedFieldCondition Sample.fresh Sample.cadence Sample.subscribe
            (Sample.condition Absent (JsString "x"))) other
     = Sample.fresh other).
Proof.
  split.
  - apply (proj1 (setLinkedFieldCondition_guard Sample.fresh Sample.cadence
                    Sample.stray (Sample.condition Absent (JsString "x")))).
    left. vm_compute. discriminate.
  - apply (proj2 (setLinkedFieldCondition_guard Sample.fresh Sample.cadence
                    Sample.subscribe (Sample.condition Absent (JsString "x")))).
    split; reflexivity.
Defined.

(** C9.  After an accepted call that supplied [hasValue], a second accepted
    call whose payload has no [hasValue] key leaves the stored [hasValue] as
    the first call set it, while the three match properties are those
    derived from the second [matchValue] alone and [linkedFieldId] is the id
    of the second linked field. *)
Theorem hasValue_survives_omitted_key h this l1 l2 (v : option bool) mv1 mv2 :
  Data.formId (data (h this)) = Data.formId (data (h l1)) ->
  archived (h l1) = false ->
  Data.formId (data (h this)) = Data.formId (data (h l2)) ->
  archived (h l2) = false ->
  let first := setLinkedFieldCondition h this l1
                 {| hasValue := Present v; matchValue := mv1 |} in
  let second := setLinkedFieldCondition (snd first) this l2
                  {| hasValue := Absent; matchValue := mv2 |} in
  fst first = Ok tt /\
  Data.hasValue (data (snd first this)) = v /\
  fst second = Ok tt /\
  Data.hasValue (data (snd second this)) = v /\
  Data.matchValueInt (data (snd second this)) = keptInt mv2 /\
  Data.matchValueStr (data (snd second this)) = keptStr mv2 /\
  Data.matchValueBool (data (snd second this)) = keptBool mv2.
Proof.
  intros Hf1 Ha1 Hf2 Ha2 first second.
  assert (Hacc1 : conditionRejected (h this) (h l1) = false)
    by (apply conditionAccepted_iff; now split).
  assert (Hacc2 : conditionRejected (h this) (h l2) = false)
    by (apply conditionAccepted_iff; now split).
  destruct (setLinkedFieldCondition_accepted h this l1
              {| hasValue := Present v; matchValue := mv1 |} Hacc1)
    as (Hok1 & _ & _ & Hhas1 & _).
  fold first in Hok1, Hhas1. cbn in Hhas1.
  pose proof (conditionRejected_after h this l1
                {| hasValue := Present v; matchValue := mv1 |} l2 Hacc1) as Hsame.
  cbn zeta in Hsame. fold first in Hsame. rewrite Hacc2 in Hsame.
  destruct (setLinkedFieldCondition_accepted (snd first) this l2
              {| hasValue := Absent; matchValue := mv2 |} Hsame)
    as (Hok2 & _ & _ & Hhas2 & Hi & Hs & Hb & _).
  fold second in Hok2, Hhas2, Hi, Hs, Hb. cbn in Hhas2, Hi, Hs, Hb.
  repeat split; try assumption.
  now rewrite Hhas2.
Qed.

Lemma hasValue_survives_omitted_key_witness :
  let first := setLinkedFieldCondition Sample.fresh Sample.subscribe Sample.email
                 {| hasValue := Present (Some true); matchValue := JsString "a" |} in
  let second := setLinkedFieldCondition (snd first) Sample.subscribe Sample.cadence
                  {| hasValue := Absent; matchValue := JsNumber 5 |} in
  fst first = Ok tt /\
  Data.hasValue (data (snd first Sample.subscribe)) = Some true /\
  fst second = Ok tt /\
  Data.hasValue (data (snd second Sample.subscribe)) = Some true /\
  Data.matchValueInt (data (snd second Sample.subscribe)) = keptInt (JsNumber 5) /\
  Data.matchValueStr (data (snd second Sample.subscribe)) = keptStr (JsNumber 5) /\
  Data.matchValueBool (data (snd second Sample.subscribe)) = keptBool (JsNumber 5).
Proof.
  apply (hasValue_survives_omitted_key Sample.fresh Sample.subscribe Sample.email
           Sample.cadence (Some true) (JsString "a") (JsNumber 5));
    reflexivity.
Defined.

End FieldFacts.

(** ** fieldTypes/textField.ts: defaults are validated *)

Section TextFieldFacts.
Import TextField.

Lemma isValidValue_false_iff (this : t) (value : string) :
  isValidValue this value = false <->
  (exists m, minLength (properties this) = Some m /\ length value < m) \/
  (exists M, maxLength (properties this) = Some M /\ length value > M).
Proof.
  unfold isValidValue.
  destruct (minLength (properties this)) as [m|];
    destruct (maxLength (properties this)) as [M|];
    try destruct (Z.ltb_spec (length value) m);
    try destruct (Z.gtb_spec (length value) M);
    (split;
     [ intros Hres; try discriminate Hres;
       first [ left; eexists; split; [reflexivity | lia]
             | right; eexists; split; [reflexivity | lia] ]
     | intros [(m' & Hm & Hlt) | (M' & HM & Hgt)];
       try discriminate; try reflexivity;
       try (injection Hm as <-); try (injection HM as <-); lia ]).
Qed.

(** C6.  [setDefault] validates with [isValidValue], which is false exactly
    when the value is shorter than a set [minLength] or longer than a set
    [maxLength].  On an invalid value it throws and the field is as before
    (in particular [defaultValue]); on a valid value it returns normally,
    [defaultValue] is the value, and nothing else of the field changes. *)
Theorem setDefault_validates (this : t) (value : string) :
  let r := setDefault this value in
  (isValidValue this value = false <->
   (exists m, minLength (properties this) = Some m /\ length value < m) \/
   (exists M, maxLength (properties this) = Some M /\ length value > M)) /\
  (isValidValue this value = false ->
   fst r = Throw setDefaultError /\
   snd r = this /\
   defaultValue (properties (snd r)) = defaultValue (properties this)) /\
  (isValidValue this value = true ->
   fst r = Ok tt /\
   defaultValue (properties (snd r)) = Some value /\
   format (properties (snd r)) = format (properties this) /\
   minLength (properties (snd r)) = minLength (properties this) /\
   maxLength (properties (snd r)) = maxLength (properties this) /\
   placeholder (properties (snd r)) = placeholder (properties this) /\
   data (snd r) = data this).
Proof.
  intros r. split; [apply isValidValue_false_iff|].
  unfold r, setDefault. split; intros Hv; rewrite Hv; cbn; repeat split.
Qed.

Lemma setDefault_validates_witness :
  (* "ab" against minLength 3 *)
  (fst (setDefault Sample.shortText "ab") = Throw setDefaultError /\
   snd (setDefault Sample.shortText "ab") = Sample.shortText /\
   defaultValue (properties (snd (setDefault Sample.shortText "ab"))) = None) /\
  (* "abcd" is between 3 and 8 *)
  (fst (setDefault Sample.shortText "abcd") = Ok tt /\
   defaultValue (properties (snd (setDefault Sample.shortText "abcd"))) = Some "abcd").
Proof.
  split.
  - apply (proj1 (proj2 (setDefault_validates Sample.shortText "ab"))).
    reflexivity.
  - destruct (proj2 (proj2 (setDefault_validates Sample.shortText "abcd")))
      as (Hok & Hdef & _); [reflexivity|].
    split; [exact Hok | exact Hdef].
Defined.

End TextFieldFacts.

(** ** fieldTypes/selectField.ts: choices *)

Section SelectFieldFacts.
Import SelectField.
Implicit Types (h : SelectFieldChoice.heap) (this : t) (choice : loc).

Lemma getChoiceIndexById_missing h this choiceId :
  (getChoiceIndexById h this choiceId =? -1)
  = negb (existsb (fun c => (SelectFieldChoice.id (h c) =? choiceId)%string)
                  (choices this)).
Proof. apply findIndex_missing. Qed.

Lemma hasChoice_iff h this choice :
  hasChoice h this choice = true <->
  exists member, In member (choices this) /\
                 SelectFieldChoice.id (h member) = SelectFieldChoice.id (h choice).
Proof.
  unfold hasChoice. rewrite getChoiceIndexById_missing, negb_involutive, existsb_exists.
  split; intros (m & Hin & Hid); exists m; split; auto; now apply String.eqb_eq.
Qed.

Lemma hasChoice_false_iff h this choice :
  hasChoice h this choice = false <->
  forall member, In member (choices this) ->
                 SelectFieldChoice.id (h member) <> SelectFieldChoice.id (h choice).
Proof.
  rewrite <- not_true_iff_false, hasChoice_iff. split.
  - intros Hno m Hin Hid. apply Hno. now exists m.
  - intros Hall (m & Hin & Hid). now apply (Hall m).
Qed.

(** What the code computes: the id is the id of no element of the choice
    sequence, archived or not. *)
Lemma isValidValue_iff h this choiceId :
  isValidValue h this choiceId = true <->
  forall member, In member (choices this) ->
                 SelectFieldChoice.id (h member) <> choiceId.
Proof.
  unfold isValidValue. rewrite getChoiceIndexById_missing, negb_true_iff.
  rewrite <- not_true_iff_false, existsb_exists. split.
  - intros Hno m Hin Hid. apply Hno. exists m. split; auto. now apply String.eqb_eq.
  - intros Hall (m & Hin & Hid). apply String.eqb_eq in Hid. now apply (Hall m).
Qed.

(** Whenever the code accepts an id, the documented rule rejects it. *)
Lemma isValidValue_excludes_live h this choiceId :
  isValidValue h this choiceId = true -> namesLiveChoice h this choiceId = false.
Proof.
  intros Hvalid. apply not_true_iff_false. unfold namesLiveChoice.
  rewrite existsb_exists. intros (m & Hin & Hm).
  apply andb_true_iff in Hm. destruct Hm as [Hid _]. apply String.eqb_eq in Hid.
  exact (proj1 (isValidValue_iff h this choiceId) Hvalid m Hin Hid).
Qed.

(** The regression scenario of the specification holds on the code: a choice
    that was added and then removed is not a valid value. *)
Lemma isValidValue_after_add_remove h this choice :
  SelectFieldChoice.archived (h choice) = false ->
  let added := addChoice h this choice in
  let removed := removeChoice (fst (snd added)) (snd (snd added)) choice in
  fst added = Ok choice /\
  fst removed = Ok tt /\
  SelectFieldChoice.archived (fst (snd removed) choice) = true /\
  isValidValue (fst (snd removed)) (snd (snd removed))
    (SelectFieldChoice.id (h choice)) = false.
Proof.
  intros Hlive added removed.
  assert (Hadd : added = (Ok choice,
                          (h, {| data := data this; properties := properties this;
                                 choices := (choices this ++ [choice])%list |})))
    by (unfold added, addChoice; now rewrite Hlive).
  subst removed. rewrite Hadd. cbn [fst snd].
  set (this' := {| data := data this; properties := properties this;
                   choices := (choices this ++ [choice])%list |}).
  assert (Hhas : hasChoice h this' choice = true).
  { apply hasChoice_iff. exists choice. split; [|reflexivity].
    cbn. apply in_or_app. right. now left. }
  unfold removeChoice. rewrite Hhas. cbn [negb fst snd].
  repeat split.
  - now rewrite upd_same.
  - apply not_true_iff_false. rewrite isValidValue_iff. intros Hall.
    apply (Hall choice).
    + cbn. apply in_or_app. right. now left.
    + now rewrite upd_same.
Qed.

(** C1 (the code against the claim).  On a select field whose choices are
    the live [every_day] and [weekly]: the id of a live choice is reported
    invalid although it names a live choice of the field, and an id that
    names no choice is reported valid.  The add-then-archive scenario does
    return false. *)
Theorem isValidValue_inverted :
  let h := Sample.choiceObjects in
  let this := Sample.selectField [0%nat; 1%nat] in
  (namesLiveChoice h this "every_day" = true /\
   isValidValue h this "every_day" = false) /\
  (namesLiveChoice h this "monthly" = false /\
   isValidValue h this "monthly" = true) /\
  (let added := addChoice h (Sample.selectField []) 0%nat in
   let removed := removeChoice (fst (snd added)) (snd (snd added)) 0%nat in
   fst added = Ok 0%nat /\ fst removed = Ok tt /\
   isValidValue (fst (snd removed)) (snd (snd removed)) "every_day" = false).
Proof. repeat split; reflexivity. Qed.

(** C7.  [removeChoice] throws, writing nothing, when no element of the
    choice sequence has the id of the choice.  Otherwise it returns normally:
    the choice object is archived and keeps its id, no other choice object is
    written, and the field with its choice sequence is exactly as before, so
    nothing is taken out of the sequence and a choice that is in it remains
    in it, now archived. *)
Theorem removeChoice_soft_delete h this choice :
  let r := removeChoice h this choice in
  ((forall member, In member (choices this) ->
      SelectFieldChoice.id (h member) <> SelectFieldChoice.id (h choice)) ->
   (exists message, fst r = Throw message) /\ snd r = (h, this)) /\
  ((exists member, In member (choices this) /\
      SelectFieldChoice.id (h member) = SelectFieldChoice.id (h choice)) ->
   fst r = Ok tt /\
   snd (snd r) = this /\
   choices (snd (snd r)) = choices this /\
   SelectFieldChoice.archived (fst (snd r) choice) = true /\
   SelectFieldChoice.id (fst (snd r) choice) = SelectFieldChoice.id (h choice) /\
   (forall other, other <> choice -> fst (snd r) other = h other) /\
   (In choice (choices this) ->
    In choice (choices (snd (snd r))) /\
    In choice (getChoices (fst (snd r)) (snd (snd r)) {| includeArchived := Some true |}) /\
    ~ In choice (getChoices (fst (snd r)) (snd (snd r)) {| includeArchived := None |}))).
Proof.
  intros r. unfold r, removeChoice. split.
  - intros Hno. apply hasChoice_false_iff in Hno. rewrite Hno. cbn.
    split; [eexists|]; reflexivity.
  - intros Hmem. apply hasChoice_iff in Hmem. rewrite Hmem. cbn [negb fst snd].
    rewrite upd_same.
    repeat split; try assumption.
    + intros other Hne. now apply upd_other.
    + unfold getChoices. cbn. rewrite filter_In, upd_same. cbn.
      intros [_ [=]].
Qed.

Lemma removeChoice_soft_delete_witness :
  (* an id that is not among the choices *)
  ((exists message,
      fst (removeChoice Sample.choiceObjects (Sample.selectField [1%nat]) 0%nat)
      = Throw message) /\
   snd (removeChoice Sample.choiceObjects (Sample.selectField [1%nat]) 0%nat)
   = (Sample.choiceObjects, Sample.selectField [1%nat])) /\
  (* a member *)
  (fst (removeChoice Sample.choiceObjects (Sample.selectField [0; 1]%nat) 0%nat) = Ok tt /\
   choices (snd (snd (removeChoice Sample.choiceObjects
                        (Sample.selectField [0; 1]%nat) 0%nat))) = [0; 1]%nat /\
   SelectFieldChoice.archived
     (fst (snd (removeChoice Sample.choiceObjects
                  (Sample.selectField [0; 1]%nat) 0%nat)) 0%nat) = true).
Proof.
  split.
  - apply (proj1 (removeChoice_soft_delete Sample.choiceObjects
                    (Sample.selectField [1%nat]) 0%nat)).
    intros member [<- | []]. vm_compute. discriminate.
  - destruct (proj2 (removeChoice_soft_delete Sample.choiceObjects
                       (Sample.selectField [0; 1]%nat) 0%nat))
      as (Hok & _ & Hseq & Harch & _).
    + exists 0%nat. split; [now left | reflexivity].
    + split; [exact Hok | split; [exact Hseq | exact Harch]].
Defined.

(** Membership is tested by id and the archive is applied to the object that
    was passed: when it is a second object carrying the id of a member, the
    call returns normally and the member itself stays live. *)
Lemma removeChoice_archives_the_argument :
  let h := Sample.choiceObjects in
  let this := Sample.selectField [0%nat] in
  let r := removeChoice h this 2%nat in
  fst r = Ok tt /\
  SelectFieldChoice.archived (fst (snd r) 2%nat) = true /\
  SelectFieldChoice.archived (fst (snd r) 0%nat) = false /\
  getChoices (fst (snd r)) (snd (snd r)) {| includeArchived := None |} = [0%nat].
Proof. repeat split; reflexivity. Qed.

End SelectFieldFacts.

(** ** index.ts: the form and its fields *)

Section FormFacts.
Import Form.
Implicit Types (h : Field.heap) (this : t) (field : loc).

Lemma getFieldIndexById_missing h this fieldId :
  (getFieldIndexById h this fieldId =? -1)
  = negb (existsb (fun f => (Field.id (h f) =? fieldId)%string) (fields this)).
Proof. apply findIndex_missing. Qed.

Lemma hasField_iff h this field :
  hasField h this field = true <->
  exists member, In member (fields this) /\ Field.id (h member) = Field.id (h field).
Proof.
  unfold hasField. rewrite getFieldIndexById_missing, negb_involutive, existsb_exists.
  split; intros (m & Hin & Hid); exists m; split; auto; now apply String.eqb_eq.
Qed.

Lemma hasField_member h this field :
  In field (fields this) -> hasField h this field = true.
Proof. intros Hin. apply hasField_iff. now exists field. Qed.

(** *** The cascade of [removeField] *)

Lemma optIdEq_iff (a : option ID) (b : ID) : optIdEq a b = true <-> a = Some b.
Proof.
  destruct a as [a|]; cbn.
  - rewrite String.eqb_eq. split; [now intros -> | now intros [= ->]].
  - split; discriminate.
Qed.

Lemma severCondition_id field h related r :
  Field.id (severCondition field h related r) = Field.id (h r).
Proof.
  unfold severCondition.
  destruct (optIdEq _ _); [|reflexivity].
  unfold upd. now destruct (Nat.eqb r related) eqn:E; [apply Nat.eqb_eq in E; subst|].
Qed.

(** The loop visits the fields one after the other, reading the store the
    earlier turns left; its result is nevertheless the simultaneous update. *)
Lemma sever_all field (l : list loc) : forall h r,
  fold_left (severCondition field) l h r
  = if existsb (Nat.eqb r) l
       && optIdEq (Field.Data.linkedFieldId (Field.data (h r))) (Field.id (h field))
    then Field.clearLinkedFieldCondition (h r)
    else h r.
Proof.
  induction l as [|related l IH]; intros h r; [reflexivity|].
  cbn [fold_left existsb]. rewrite IH, severCondition_id.
  unfold severCondition.
  destruct (optIdEq (Field.Data.linkedFieldId (Field.data (h related)))
                    (Field.id (h field))) eqn:Hrel.
  - destruct (Nat.eqb r related) eqn:E.
    + apply Nat.eqb_eq in E. subst r. rewrite upd_same, Hrel. cbn.
      now rewrite andb_false_r.
    + apply Nat.eqb_neq in E. now rewrite (upd_other _ _ _ _ E).
  - destruct (Nat.eqb r related) eqn:E; [|reflexivity].
    apply Nat.eqb_eq in E. subst r. rewrite Hrel. cbn.
    now rewrite andb_false_r.
Qed.

(** The store [removeField] leaves behind, object by object. *)
Lemma removeField_store h this field :
  hasField h this field = true ->
  removeField h this field
  = (Ok tt, (fold_left (severCondition field) (fields this)
               (upd h field (Field.setArchived (h field))), this)) /\
  forall r,
    fst (snd (removeField h this field)) r
    = let before := if Nat.eqb r field then Field.setArchived (h r) else h r in
      if existsb (Nat.eqb r) (fields this)
         && optIdEq (Field.Data.linkedFieldId (Field.data before)) (Field.id (h field))
      then Field.clearLinkedFieldCondition before
      else before.
Proof.
  intros Hhas. unfold removeField. rewrite Hhas. cbn [negb fst snd].
  split; [reflexivity|]. intros r.
  rewrite sever_all, upd_same. unfold upd at 1 2 3.
  destruct (Nat.eqb r field) eqn:E; [apply Nat.eqb_eq in E; subst r|]; reflexivity.
Qed.

Lemma existsb_eqb_In (r : loc) (l : list loc) :
  existsb (Nat.eqb r) l = true <-> In r l.
Proof.
  rewrite existsb_exists. split.
  - intros (x & Hin & E). apply Nat.eqb_eq in E. now subst.
  - intros Hin. exists r. split; [assumption | apply Nat.eqb_refl].
Qed.

(** C3 (the claim as stated fails).  [email] is linked to itself and is a
    field of the form.  It is not one of the sibling fields whose
    [linkedFieldId] is its id, yet [removeField] clears its condition: the
    rule that every field outside that set keeps its condition does not
    hold for the removed field. *)
Lemma removeField_clears_a_self_link :
  let h := snd (Field.setLinkedFieldCondition Sample.fresh Sample.email Sample.email
                  (Sample.condition (Present (Some true)) (JsString "x"))) in
  let F := Sample.email in
  let r := removeField h Sample.filled F in
  let h' := fst (snd r) in
  In F (fields Sample.filled) /\
  fst r = Ok tt /\
  Field.Data.linkedFieldId (Field.data (h F)) = Some (Field.id (h F)) /\
  Field.conditionOf (h' F) = Field.noCondition /\
  Field.conditionOf (h' F) <> Field.conditionOf (h F) /\
  ~ (forall G,
       ~ (G <> F /\ In G (fields Sample.filled) /\
          Field.Data.linkedFieldId (Field.data (h G)) = Some (Field.id (h F))) ->
       Field.conditionOf (h' G) = Field.conditionOf (h G)).
Proof.
  intros h F r h'.
  split; [now left|]. split; [reflexivity|]. split; [reflexivity|].
  split; [reflexivity|]. split; [vm_compute; discriminate|].
  intros Hall. specialize (Hall F).
  assert (Hsame : Field.conditionOf (h' F) = Field.conditionOf (h F)).
  { apply Hall. intros [Hne _]. now apply Hne. }
  vm_compute in Hsame. discriminate Hsame.
Qed.

(** C3 (amended).  For a field [F] of the form, [removeField] returns
    normally and leaves the form itself as it was.  [F] is archived and
    nothing else of it is written, except that its own condition is cleared
    when [F] is linked to its own id; otherwise [F] keeps its condition.  A
    field of the form other than [F] whose [linkedFieldId] is the id of [F]
    has its condition cleared (all five properties unset, the rest of the
    object kept); every other field object other than [F] is exactly as
    before. *)
Theorem removeField_cascade h this F :
  In F (fields this) ->
  let r := removeField h this F in
  let h' := fst (snd r) in
  fst r = Ok tt /\
  snd (snd r) = this /\
  Field.archived (h' F) = true /\
  (forall G, G <> F -> In G (fields this) ->
     Field.Data.linkedFieldId (Field.data (h G)) = Some (Field.id (h F)) ->
     Field.conditionOf (h' G) = Field.noCondition /\
     h' G = Field.clearLinkedFieldCondition (h G)) /\
  (forall G, G <> F ->
     ~ (In G (fields this) /\
        Field.Data.linkedFieldId (Field.data (h G)) = Some (Field.id (h F))) ->
     h' G = h G /\ Field.conditionOf (h' G) = Field.conditionOf (h G)) /\
  (Field.Data.linkedFieldId (Field.data (h F)) = Some (Field.id (h F)) ->
   h' F = Field.clearLinkedFieldCondition (Field.setArchived (h F)) /\
   Field.conditionOf (h' F) = Field.noCondition) /\
  (Field.Data.linkedFieldId (Field.data (h F)) <> Some (Field.id (h F)) ->
   h' F = Field.setArchived (h F) /\
   Field.conditionOf (h' F) = Field.conditionOf (h F)).
Proof.
  intros Hin r h'.
  destruct (removeField_store h this F (hasField_member h this F Hin)) as [Heq Hst].
  fold r in Heq, Hst. fold h' in Hst.
  assert (HstF : h' F
                 = if optIdEq (Field.Data.linkedFieldId (Field.data (h F))) (Field.id (h F))
                   then Field.clearLinkedFieldCondition (Field.setArchived (h F))
                   else Field.setArchived (h F)).
  { rewrite Hst, Nat.eqb_refl. cbn zeta.
    now rewrite (proj2 (existsb_eqb_In F (fields this)) Hin). }
  split; [now rewrite Heq|]. split; [now rewrite Heq|].
  split; [|split; [|split; [|split]]].
  - rewrite HstF. now destruct (optIdEq _ _).
  - intros G Hne HinG Hlink. rewrite Hst.
    apply Nat.eqb_neq in Hne. rewrite Hne. cbn zeta.
    rewrite (proj2 (existsb_eqb_In G (fields this)) HinG).
    rewrite (proj2 (optIdEq_iff _ _) Hlink). cbn. now split.
  - intros G Hne Hnot. rewrite Hst.
    apply Nat.eqb_neq in Hne. rewrite Hne. cbn zeta.
    destruct (existsb (Nat.eqb G) (fields this)) eqn:Hex; cbn; [|now split].
    destruct (optIdEq (Field.Data.linkedFieldId (Field.data (h G))) (Field.id (h F)))
      eqn:Hlink; [|now split].
    exfalso. apply Hnot. split.
    + now apply existsb_eqb_In.
    + now apply optIdEq_iff.
  - intros Hself. rewrite HstF, (proj2 (optIdEq_iff _ _) Hself). now split.
  - intros Hother. rewrite HstF.
    destruct (optIdEq _ _) eqn:Hlink; [apply optIdEq_iff in Hlink; contradiction|].
    now split.
Qed.

(** The end-to-end scenario: removing [subscribe] clears the condition of
    [cadence], leaves [email] untouched, and [subscribe] keeps its own
    condition on [email]; removing a self-linked [email] clears its
    condition. *)
Lemma removeField_cascade_witness :
  (let r := removeField Sample.linked Sample.filled Sample.subscribe in
   fst r = Ok tt /\
   Field.archived (fst (snd r) Sample.subscribe) = true /\
   Field.conditionOf (fst (snd r) Sample.cadence) = Field.noCondition /\
   fst (snd r) Sample.email = Sample.linked Sample.email /\
   fst (snd r) Sample.subscribe = Field.setArchived (Sample.linked Sample.subscribe) /\
   Field.conditionOf (fst (snd r) Sample.subscribe)
   = Field.conditionOf (Sample.linked Sample.subscribe)) /\
  (let h := snd (Field.setLinkedFieldCondition Sample.fresh Sample.email Sample.email
                   (Sample.condition (Present (Some true)) (JsString "x"))) in
   Field.conditionOf (fst (snd (removeField h Sample.filled Sample.email)) Sample.email)
   = Field.noCondition).
Proof.
  split.
  - destruct (removeField_cascade Sample.linked Sample.filled Sample.subscribe)
      as (Hok & _ & Harch & Hclear & Hframe & _ & Hown).
    + right. now left.
    + split; [exact Hok|]. split; [exact Harch|]. split; [|split].
      * apply (Hclear Sample.cadence).
        -- discriminate.
        -- right. right. now left.
        -- reflexivity.
      * apply (Hframe Sample.email).
        -- discriminate.
        -- intros [_ Hlink]. vm_compute in Hlink. discriminate Hlink.
      * apply Hown. intros Hlink. vm_compute in Hlink. discriminate Hlink.
  - intros h.
    destruct (removeField_cascade h Sample.filled Sample.email)
      as (_ & _ & _ & _ & _ & Hself & _).
    + now left.
    + apply Hself. reflexivity.
Defined.

(** The removed field itself is visited by the loop as well: its own
    condition is cleared exactly when it was linked to its own id. *)
Lemma removeField_own_condition h this F :
  In F (fields this) ->
  Field.conditionOf (fst (snd (removeField h this F)) F)
  = if optIdEq (Field.Data.linkedFieldId (Field.data (h F))) (Field.id (h F))
    then Field.noCondition
    else Field.conditionOf (h F).
Proof.
  intros Hin.
  destruct (removeField_store h this F (hasField_member h this F Hin)) as [_ Hst].
  rewrite Hst, Nat.eqb_refl. cbn zeta.
  rewrite (proj2 (existsb_eqb_In F (fields this)) Hin). cbn.
  now destruct (optIdEq _ _).
Qed.

(** *** [addField] *)

(** C5 (the claim as stated fails).  [email] is a live member of the form;
    adding it again returns normally and its id then occurs twice in the
    field sequence. *)
Lemma addField_accepts_a_member :
  let h := Sample.fresh in
  let this := {| data := data Sample.form; fields := [Sample.email] |} in
  let r := addField h this Sample.email in
  hasField h this Sample.email = true /\
  fst r = Ok tt /\
  fields (snd (snd r)) = [Sample.email; Sample.email] /\
  ~ NoDup (map (fun f => Field.id (fst (snd r) f)) (fields (snd (snd r)))).
Proof.
  repeat split; try reflexivity.
  cbn. intros Hnodup. inversion Hnodup as [|x l Hnotin _]; subst.
  apply Hnotin. now left.
Qed.

(** C5 (amended).  [addField] throws, writing nothing, when the field is
    archived.  Otherwise it returns normally, whether or not a field with
    that id is already in the sequence: the field is appended at the end,
    and neither the field objects nor the data of the form are written. *)
Theorem addField_rejects_archived_only h this field :
  let r := addField h this field in
  (Field.archived (h field) = true ->
   (exists message, fst r = Throw message) /\ snd r = (h, this)) /\
  (Field.archived (h field) = false ->
   fst r = Ok tt /\
   fst (snd r) = h /\
   fields (snd (snd r)) = (fields this ++ [field])%list /\
   data (snd (snd r)) = data this).
Proof.
  intros r. unfold r, addField.
  split; intros Harch; rewrite Harch; cbn; repeat split. eexists; reflexivity.
Qed.

Lemma addField_rejects_archived_only_witness :
  ((exists message, fst (addField Sample.fresh Sample.form Sample.retired) = Throw message) /\
   snd (addField Sample.fresh Sample.form Sample.retired) = (Sample.fresh, Sample.form)) /\
  (fst (addField Sample.fresh Sample.filled Sample.email) = Ok tt /\
   fst (snd (addField Sample.fresh Sample.filled Sample.email)) = Sample.fresh /\
   fields (snd (snd (addField Sample.fresh Sample.filled Sample.email)))
   = [Sample.email; Sample.subscribe; Sample.cadence; Sample.email] /\
   data (snd (snd (addField Sample.fresh Sample.filled Sample.email)))
   = data Sample.filled).
Proof.
  split.
  - apply (proj1 (addField_rejects_archived_only Sample.fresh Sample.form Sample.retired)).
    reflexivity.
  - apply (proj2 (addField_rejects_archived_only Sample.fresh Sample.filled Sample.email)).
    reflexivity.
Defined.

(** *** [getFields] *)

Lemma subseq_filter {A} (p : A -> bool) (l : list A) : subseq (filter p l) l.
Proof.
  induction l as [|x l IH]; cbn.
  - constructor.
  - destruct (p x); now constructor.
Qed.

Lemma subseq_refl {A} (l : list A) : subseq l l.
Proof. induction l; now constructor. Qed.

Lemma occurrences_filter (p : loc -> bool) (l : list loc) (r : loc) :
  occurrences r (filter p l) = if p r then occurrences r l else 0%nat.
Proof.
  unfold occurrences. induction l as [|x l IH]; cbn.
  - now destruct (p r).
  - destruct (p x) eqn:Hx; cbn; destruct (Nat.eq_dec x r) as [-> | Hne].
    + now rewrite IH, Hx.
    + exact IH.
    + now rewrite IH, Hx.
    + exact IH.
Qed.

(** C8.  Without [includeArchived] (also with [includeArchived: false]),
    [getFields] returns the field sequence with the archived fields dropped:
    the result is the sequence with elements removed and the order kept, its
    elements are exactly the members that are not archived, and each of
    them occurs as often as in the sequence.  With [includeArchived: true]
    it returns the whole sequence. *)
Theorem getFields_live_in_order h this :
  let live := getFields h this noOptions in
  subseq live (fields this) /\
  (forall f, In f live <-> In f (fields this) /\ Field.archived (h f) = false) /\
  (forall f, Field.archived (h f) = false ->
             occurrences f live = occurrences f (fields this)) /\
  (forall f, Field.archived (h f) = true -> occurrences f live = 0%nat) /\
  getFields h this {| includeArchived := Some false |} = live /\
  getFields h this {| includeArchived := Some true |} = fields this.
Proof.
  intros live.
  assert (Hlive : live = filter (fun f => negb (Field.archived (h f))) (fields this))
    by reflexivity.
  split; [rewrite Hlive; apply subseq_filter|].
  split; [|split; [|split; [|split; reflexivity]]].
  - intros f. rewrite Hlive, filter_In, negb_true_iff. reflexivity.
  - intros f Hf. now rewrite Hlive, occurrences_filter, Hf.
  - intros f Hf. now rewrite Hlive, occurrences_filter, Hf.
Qed.

Lemma getFields_live_in_order_witness :
  let h := fst (snd (removeField Sample.linked Sample.filled Sample.subscribe)) in
  getFields h Sample.filled noOptions = [Sample.email; Sample.cadence] /\
  subseq (getFields h Sample.filled noOptions) (fields Sample.filled) /\
  occurrences Sample.cadence (getFields h Sample.filled noOptions)
  = occurrences Sample.cadence (fields Sample.filled) /\
  occurrences Sample.subscribe (getFields h Sample.filled noOptions) = 0%nat /\
  getFields h Sample.filled {| includeArchived := Some true |}
  = [Sample.email; Sample.subscribe; Sample.cadence].
Proof.
  intros h.
  destruct (getFields_live_in_order h Sample.filled)
    as (Hsub & _ & Hkeep & Hdrop & _ & Hall).
  split; [reflexivity|]. split; [exact Hsub|].
  split; [apply Hkeep; reflexivity|].
  split; [apply Hdrop; reflexivity | exact Hall].
Defined.

(** *** The data record of the form *)

Lemma hasField_withArchived b h this field :
  hasField h (withArchived b this) field = hasField h this field.
Proof. reflexivity. Qed.

(** C10.  [addField] and [removeField] leave the data record of the form as
    it was, and [hasField] and [getFields] return a value without writing.
    None of the four reads the archived flag of the form: overwriting the
    flag changes neither the outcome, nor the field objects, nor the field
    sequence the call leaves behind.  In particular, on a form whose flag is
    true a live field is still added and a member is still removed. *)
Theorem form_data_is_a_frame h this field options (b : bool) :
  (data (snd (snd (addField h this field))) = data this /\
   data (snd (snd (removeField h this field))) = data this) /\
  (let r := addField h this field in
   let r' := addField h (withArchived b this) field in
   fst r' = fst r /\ fst (snd r') = fst (snd r) /\
   snd (snd r') = withArchived b (snd (snd r))) /\
  (let r := removeField h this field in
   let r' := removeField h (withArchived b this) field in
   fst r' = fst r /\ fst (snd r') = fst (snd r) /\
   snd (snd r') = withArchived b (snd (snd r))) /\
  hasField h (withArchived b this) field = hasField h this field /\
  getFields h (withArchived b this) options = getFields h this options /\
  (Field.archived (h field) = false ->
   fst (addField h (withArchived true this) field) = Ok tt) /\
  (In field (fields this) ->
   fst (removeField h (withArchived true this) field) = Ok tt).
Proof.
  split; [split|].
  - unfold addField. now destruct (Field.archived (h field)).
  - unfold removeField. now destruct (hasField h this field).
  - split; [|split; [|split; [reflexivity | split; [reflexivity | split]]]].
    + unfold addField. cbn. now destruct (Field.archived (h field)).
    + unfold removeField. rewrite hasField_withArchived. cbn.
      now destruct (hasField h this field).
    + intros Hlive. unfold addField. now rewrite Hlive.
    + intros Hin. unfold removeField.
      rewrite hasField_withArchived, (hasField_member h this field Hin).
      reflexivity.
Qed.

Lemma form_data_is_a_frame_witness :
  fst (addField Sample.fresh (withArchived true Sample.filled) Sample.stray) = Ok tt /\
  fst (removeField Sample.linked (withArchived true Sample.filled) Sample.subscribe)
  = Ok tt.
Proof.
  destruct (form_data_is_a_frame Sample.linked Sample.filled Sample.subscribe
              noOptions true) as (_ & _ & _ & _ & _ & _ & Hremove).
  destruct (form_data_is_a_frame Sample.fresh Sample.filled Sample.stray
              noOptions true) as (_ & _ & _ & _ & _ & Hadd & _).
  split.
  - apply Hadd. reflexivity.
  - apply Hremove. right. now left.
Defined.

End FormFacts.

(** * Further properties of the sources *)

(** ** More on [findIndex] and [filter] *)

Section SequenceFacts.
Context {A : Type}.
Implicit Types (p q : A -> bool) (l : list A).

Lemma findIndexFrom_ext p q l : forall i,
  (forall x, In x l -> p x = q x) ->
  findIndexFrom p i l = findIndexFrom q i l.
Proof.
  induction l as [|x l IH]; intros i Hpq; [reflexivity|].
  cbn. rewrite <- (Hpq x (or_introl eq_refl)).
  destruct (p x); [reflexivity|].
  apply IH. intros y Hy. apply Hpq. now right.
Qed.

Lemma findIndex_ext p q l :
  (forall x, In x l -> p x = q x) -> findIndex p l = findIndex q l.
Proof. apply findIndexFrom_ext. Qed.

Lemma findIndexFrom_app p l1 l2 : forall i,
  0 <= i ->
  findIndexFrom p i (l1 ++ l2)
  = if findIndexFrom p i l1 =? -1
    then findIndexFrom p (i + Z.of_nat (List.length l1)) l2
    else findIndexFrom p i l1.
Proof.
  induction l1 as [|x l1 IH]; intros i Hi.
  - cbn. now rewrite Z.add_0_r.
  - cbn [app findIndexFrom List.length]. destruct (p x).
    + destruct (Z.eqb_spec i (-1)); [lia | reflexivity].
    + rewrite IH by lia. now replace (i + 1 + Z.of_nat (List.length l1))
        with (i + Z.of_nat (S (List.length l1))) by lia.
Qed.

Lemma findIndex_app p l1 l2 :
  findIndex p (l1 ++ l2)
  = if findIndex p l1 =? -1
    then findIndexFrom p (Z.of_nat (List.length l1)) l2
    else findIndex p l1.
Proof. unfold findIndex. now rewrite findIndexFrom_app by lia. Qed.

(** The index returned is that of the first element satisfying the
    predicate. *)
Lemma findIndexFrom_first p l : forall i,
  0 <= i ->
  findIndexFrom p i l <> -1 ->
  exists x,
    nth_error l (Z.to_nat (findIndexFrom p i l - i)) = Some x /\
    p x = true /\
    forall j y, (j < Z.to_nat (findIndexFrom p i l - i))%nat ->
                nth_error l j = Some y -> p y = false.
Proof.
  induction l as [|x l IH]; intros i Hi Hfound; [now contradiction Hfound|].
  cbn in *. destruct (p x) eqn:Hx.
  - rewrite Z.sub_diag. exists x. cbn. repeat split; auto. intros j y Hj. lia.
  - destruct (IH (i + 1) ltac:(lia) Hfound) as (y & Hnth & Hy & Hbefore).
    destruct (findIndexFrom_range p l (i + 1) ltac:(lia)) as [E | B]; [contradiction|].
    replace (Z.to_nat (findIndexFrom p (i + 1) l - i))
      with (S (Z.to_nat (findIndexFrom p (i + 1) l - (i + 1)))) by lia.
    exists y. cbn. repeat split; auto.
    intros [|j] z Hj Hz; cbn in Hz.
    + now injection Hz as <-.
    + apply (Hbefore j z); [lia | assumption].
Qed.

Lemma filter_filter p q l :
  filter p (filter q l) = filter (fun x => q x && p x) l.
Proof.
  induction l as [|x l IH]; [reflexivity|].
  cbn. destruct (q x); cbn; [destruct (p x)|]; now rewrite IH.
Qed.

Lemma filter_same p q l :
  (forall x, In x l -> p x = q x) -> filter p l = filter q l.
Proof.
  induction l as [|x l IH]; intros Hpq; [reflexivity|].
  cbn. rewrite (Hpq x (or_introl eq_refl)), IH; [reflexivity|].
  intros y Hy. apply Hpq. now right.
Qed.
End SequenceFacts.

(** ** field.ts, continued *)

Section FieldMore.
Import Field.
Implicit Types (h : heap) (this linkedField : loc) (c : FieldConditionOptions).

(** An accepted call sets at most one of the three match properties.  It
    sets one exactly when the match value is truthy and a number, a string
    or a boolean, that is: a number other than zero and [NaN], a string other
    than the empty one, or [true]; the property that is set is the one of
    that type.  For [NaN], as for zero, none is set. *)
Theorem setLinkedFieldCondition_one_match_property h this linkedField c :
  Data.formId (data (h this)) = Data.formId (data (h linkedField)) ->
  archived (h linkedField) = false ->
  let after := snd (setLinkedFieldCondition h this linkedField c) this in
  let mv := matchValue c in
  (matchPropertiesSet after <= 1)%nat /\
  (matchPropertiesSet after = 1%nat <->
   truthy mv = true /\
   (typeof mv = "number" \/ typeof mv = "string" \/ typeof mv = "boolean")) /\
  (matchPropertiesSet after = 1%nat <->
   (exists n, mv = JsNumber n /\ n <> 0) \/
   (exists s, mv = JsString s /\ s <> "") \/
   mv = JsBoolean true) /\
  (Data.matchValueInt (data after) <> None <->
   truthy mv = true /\ typeof mv = "number") /\
  (Data.matchValueStr (data after) <> None <->
   truthy mv = true /\ typeof mv = "string") /\
  (Data.matchValueBool (data after) <> None <->
   truthy mv = true /\ typeof mv = "boolean") /\
  (mv = JsNaN \/ mv = JsNumber 0 -> matchPropertiesSet after = 0%nat).
Proof.
  intros Hform Hlive after mv.
  assert (Hacc : conditionRejected (h this) (h linkedField) = false)
    by (apply conditionAccepted_iff; now split).
  destruct (setLinkedFieldCondition_accepted h this linkedField c Hacc)
    as (_ & _ & _ & _ & Hi & Hs & Hb & _).
  fold after in Hi, Hs, Hb. unfold matchPropertiesSet. rewrite Hi, Hs, Hb.
  fold mv. clearbody mv. clear Hi Hs Hb.
  assert (Hsplit : forall P Q : Prop, P -> Q -> P /\ Q) by (intros; now split).
  destruct mv as [| |n| |s|b|]; cbn;
    try destruct (Z.eqb_spec n 0); try destruct (String.eqb_spec s "");
    try destruct b; cbn;
    repeat apply Hsplit; try lia;
    try (split; intros ?); try (intros ?);
    repeat match goal with
      | H : _ /\ _ |- _ => destruct H
      | H : _ \/ _ |- _ => destruct H
      | H : exists _, _ |- _ => destruct H
      | H : JsNumber _ = JsNumber _ |- _ => injection H as H; subst
      | H : JsString _ = JsString _ |- _ => injection H as H; subst
      end;
    try congruence; try lia;
    first [ now repeat split
          | now (left; eexists; split; [reflexivity | assumption])
          | now (right; left; eexists; split; [reflexivity | assumption])
          | now (right; right)
          | now auto ].
Qed.

Lemma setLinkedFieldCondition_one_match_property_witness :
  (matchPropertiesSet
     (snd (setLinkedFieldCondition Sample.fresh Sample.cadence Sample.subscribe
             (Sample.condition Absent (JsString "yes"))) Sample.cadence) = 1%nat <->
   truthy (JsString "yes") = true /\
   (typeof (JsString "yes") = "number" \/ typeof (JsString "yes") = "string"
    \/ typeof (JsString "yes") = "boolean")) /\
  matchPropertiesSet
    (snd (setLinkedFieldCondition Sample.fresh Sample.cadence Sample.subscribe
            (Sample.condition Absent JsNaN)) Sample.cadence) = 0%nat.
Proof.
  split.
  - apply (setLinkedFieldCondition_one_match_property Sample.fresh Sample.cadence
             Sample.subscribe (Sample.condition Absent (JsString "yes")));
      reflexivity.
  - destruct (setLinkedFieldCondition_one_match_property Sample.fresh Sample.cadence
                Sample.subscribe (Sample.condition Absent JsNaN))
      as (_ & _ & _ & _ & _ & _ & Hnone); [reflexivity | reflexivity |].
    apply Hnone. now left.
Defined.

(** Clearing after an accepted call gives the field cleared as it was
    before the call; a field that had no condition is back to what it was. *)
Theorem clear_undoes_setLinkedFieldCondition h this linkedField c :
  Data.formId (data (h this)) = Data.formId (data (h linkedField)) ->
  archived (h linkedField) = false ->
  let after := snd (setLinkedFieldCondition h this linkedField c) this in
  clearLinkedFieldCondition after = clearLinkedFieldCondition (h this) /\
  (conditionOf (h this) = noCondition -> clearLinkedFieldCondition after = h this).
Proof.
  intros Hform Hlive after.
  assert (Hacc : conditionRejected (h this) (h linkedField) = false)
    by (apply conditionAccepted_iff; now split).
  assert (Hclear : clearLinkedFieldCondition after = clearLinkedFieldCondition (h this)).
  { unfold after, setLinkedFieldCondition. rewrite Hacc. cbn [snd].
    now rewrite upd_same. }
  split; [exact Hclear|].
  intros Hnone. rewrite Hclear.
  destruct (h this) as [[]]. unfold conditionOf, noCondition in Hnone. cbn in Hnone.
  injection Hnone as -> -> -> -> ->. reflexivity.
Qed.

Lemma clear_undoes_setLinkedFieldCondition_witness :
  clearLinkedFieldCondition
    (snd (setLinkedFieldCondition Sample.fresh Sample.cadence Sample.subscribe
            (Sample.condition (Present (Some true)) (JsNumber 3))) Sample.cadence)
  = Sample.fresh Sample.cadence.
Proof.
  apply (clear_undoes_setLinkedFieldCondition Sample.fresh Sample.cadence
           Sample.subscribe (Sample.condition (Present (Some true)) (JsNumber 3)));
    reflexivity.
Defined.

(** A call never changes the id of a field object. *)
Lemma setLinkedFieldCondition_id h this linkedField c r :
  id (snd (setLinkedFieldCondition h this linkedField c) r) = id (h r).
Proof.
  unfold setLinkedFieldCondition.
  destruct (conditionRejected _ _); [reflexivity|]. cbn [snd]. unfold upd.
  destruct (Nat.eqb r this) eqn:E; [apply Nat.eqb_eq in E; now subst|reflexivity].
Qed.

(** The last accepted call wins when its payload carries [hasValue]: the
    store is the one the second call alone would have produced. *)
Theorem setLinkedFieldCondition_last_wins h this l1 c1 l2 (v2 : option bool) mv2 :
  Data.formId (data (h this)) = Data.formId (data (h l1)) ->
  archived (h l1) = false ->
  Data.formId (data (h this)) = Data.formId (data (h l2)) ->
  archived (h l2) = false ->
  let c2 := {| hasValue := Present v2; matchValue := mv2 |} in
  let first := setLinkedFieldCondition h this l1 c1 in
  let second := setLinkedFieldCondition (snd first) this l2 c2 in
  fst second = Ok tt /\
  forall r, snd second r = snd (setLinkedFieldCondition h this l2 c2) r.
Proof.
  intros Hf1 Ha1 Hf2 Ha2 c2 first second.
  assert (Hacc1 : conditionRejected (h this) (h l1) = false)
    by (apply conditionAccepted_iff; now split).
  assert (Hacc2 : conditionRejected (h this) (h l2) = false)
    by (apply conditionAccepted_iff; now split).
  pose proof (conditionRejected_after h this l1 c1 l2 Hacc1) as Hsame.
  cbn zeta in Hsame. fold first in Hsame. rewrite Hacc2 in Hsame.
  pose proof (setLinkedFieldCondition_id h this l1 c1 l2) as Hid.
  fold first in Hid.
  destruct (setLinkedFieldCondition_accepted h this l1 c1 Hacc1)
    as (_ & Hframe & _ & _ & _ & _ & _ & _).
  fold first in Hframe.
  unfold second. unfold setLinkedFieldCondition.
  rewrite Hsame, Hacc2. cbn [fst snd]. split; [reflexivity|].
  intros r. unfold upd.
  destruct (Nat.eqb r this) eqn:E.
  - rewrite Hid. unfold first, setLinkedFieldCondition. rewrite Hacc1. cbn [snd].
    rewrite upd_same. reflexivity.
  - apply Nat.eqb_neq in E. now apply Hframe.
Qed.

Lemma setLinkedFieldCondition_last_wins_witness :
  fst (setLinkedFieldCondition
         (snd (setLinkedFieldCondition Sample.fresh Sample.cadence Sample.email
                 (Sample.condition (Present (Some true)) (JsString "a"))))
         Sample.cadence Sample.subscribe
         {| hasValue := Present None; matchValue := JsBoolean true |}) = Ok tt /\
  forall r,
    snd (setLinkedFieldCondition
           (snd (setLinkedFieldCondition Sample.fresh Sample.cadence Sample.email
                   (Sample.condition (Present (Some true)) (JsString "a"))))
           Sample.cadence Sample.subscribe
           {| hasValue := Present None; matchValue := JsBoolean true |}) r
    = snd (setLinkedFieldCondition Sample.fresh Sample.cadence Sample.subscribe
             {| hasValue := Present None; matchValue := JsBoolean true |}) r.
Proof.
  apply (setLinkedFieldCondition_last_wins Sample.fresh Sample.cadence Sample.email
           (Sample.condition (Present (Some true)) (JsString "a"))
           Sample.subscribe None (JsBoolean true));
    reflexivity.
Defined.

(** A field may be linked to itself: the call on [this] with [this] as the
    linked field is accepted exactly when the field is not archived, and then
    its [linkedFieldId] is its own id. *)
Theorem setLinkedFieldCondition_on_itself h this c :
  let r := setLinkedFieldCondition h this this c in
  (fst r = Ok tt <-> archived (h this) = false) /\
  (archived (h this) = false ->
   Data.linkedFieldId (data (snd r this)) = Some (id (h this))) /\
  (archived (h this) = true -> fst r = Throw conditionError /\ snd r = h).
Proof.
  intros r. unfold r, setLinkedFieldCondition, conditionRejected.
  rewrite String.eqb_refl. cbn [negb orb].
  destruct (archived (h this)); cbn [fst snd].
  - split; [split; discriminate|]. split; [discriminate | now split].
  - split; [split; reflexivity|]. split; [|discriminate].
    intros _. now rewrite upd_same.
Qed.

Lemma setLinkedFieldCondition_on_itself_witness :
  Data.linkedFieldId
    (data (snd (setLinkedFieldCondition Sample.fresh Sample.email Sample.email
                  (Sample.condition Absent (JsString "x"))) Sample.email))
  = Some "email" /\
  fst (setLinkedFieldCondition Sample.fresh Sample.retired Sample.retired
         (Sample.condition Absent (JsString "x"))) = Throw conditionError.
Proof.
  split.
  - apply (proj1 (proj2 (setLinkedFieldCondition_on_itself Sample.fresh Sample.email
                           (Sample.condition Absent (JsString "x"))))).
    reflexivity.
  - apply (proj2 (proj2 (setLinkedFieldCondition_on_itself Sample.fresh Sample.retired
                           (Sample.condition Absent (JsString "x"))))).
    reflexivity.
Defined.

End FieldMore.

(** ** index.ts, continued *)

Section FormMore.
Import Form.
Implicit Types (h : Field.heap) (this : t) (field : loc).

(** [getFieldIndexById] is a linear scan: it answers [-1] exactly when no
    field of the sequence has the id, and otherwise the index of the first
    field that has it. *)
Theorem getFieldIndexById_first h this fieldId :
  let i := getFieldIndexById h this fieldId in
  (i = -1 <-> forall member, In member (fields this) -> Field.id (h member) <> fieldId) /\
  (i <> -1 ->
   0 <= i < Z.of_nat (List.length (fields this)) /\
   exists member,
     at_index (fields this) i = Some member /\
     Field.id (h member) = fieldId /\
     forall j earlier, 0 <= j < i -> at_index (fields this) j = Some earlier ->
                       Field.id (h earlier) <> fieldId).
Proof.
  intros i. split.
  - unfold i. rewrite <- Z.eqb_eq, getFieldIndexById_missing, negb_true_iff.
    rewrite <- not_true_iff_false, existsb_exists. split.
    + intros Hno m Hin Hid. apply Hno. exists m. split; auto. now apply String.eqb_eq.
    + intros Hall (m & Hin & Hid). apply String.eqb_eq in Hid. now apply (Hall m).
  - intros Hfound.
    destruct (findIndex_range (fun f => (Field.id (h f) =? fieldId)%string) (fields this))
      as [E | B]; [contradiction|]. fold (getFieldIndexById h this fieldId) in B. fold i in B.
    split; [exact B|].
    destruct (findIndexFrom_first (fun f => (Field.id (h f) =? fieldId)%string)
                (fields this) 0 ltac:(lia) Hfound) as (m & Hnth & Hm & Hbefore).
    fold (findIndex (fun f => (Field.id (h f) =? fieldId)%string) (fields this)) in Hnth, Hbefore.
    fold (getFieldIndexById h this fieldId) in Hnth, Hbefore. fold i in Hnth, Hbefore.
    rewrite Z.sub_0_r in Hnth, Hbefore.
    exists m. split; [|split].
    + unfold at_index. destruct (Z.ltb_spec i 0); [lia | exact Hnth].
    + now apply String.eqb_eq.
    + intros j e Hj He. unfold at_index in He.
      destruct (Z.ltb_spec j 0); [lia|].
      apply String.eqb_neq. apply (Hbefore (Z.to_nat j) e); [lia | exact He].
Qed.

Lemma getFieldIndexById_first_witness :
  0 <= getFieldIndexById Sample.fresh Sample.filled "subscribe"
    < Z.of_nat (List.length (fields Sample.filled)) /\
  exists member,
    at_index (fields Sample.filled)
      (getFieldIndexById Sample.fresh Sample.filled "subscribe") = Some member /\
    Field.id (Sample.fresh member) = "subscribe" /\
    forall j earlier,
      0 <= j < getFieldIndexById Sample.fresh Sample.filled "subscribe" ->
      at_index (fields Sample.filled) j = Some earlier ->
      Field.id (Sample.fresh earlier) <> "subscribe".
Proof.
  apply (proj2 (getFieldIndexById_first Sample.fresh Sample.filled "subscribe")).
  vm_compute. discriminate.
Defined.

(** The lookups read ids only, so stores that agree on ids agree on them. *)
Lemma getFieldIndexById_ids h h' this fieldId :
  (forall r, Field.id (h' r) = Field.id (h r)) ->
  getFieldIndexById h' this fieldId = getFieldIndexById h this fieldId.
Proof.
  intros Hid. apply findIndex_ext. intros x _. now rewrite Hid.
Qed.

Lemma hasField_ids h h' this field :
  (forall r, Field.id (h' r) = Field.id (h r)) ->
  hasField h' this field = hasField h this field.
Proof.
  intros Hid. unfold hasField. now rewrite Hid, (getFieldIndexById_ids h h' this _ Hid).
Qed.

(** After a successful [addField] the field is found, every id that was
    found before is found at the same index, and an id that was not in the
    sequence is found at the old length. *)
Theorem addField_then_lookup h this field :
  Field.archived (h field) = false ->
  let this' := snd (snd (addField h this field)) in
  hasField h this' field = true /\
  (forall fieldId, getFieldIndexById h this fieldId <> -1 ->
     getFieldIndexById h this' fieldId = getFieldIndexById h this fieldId) /\
  (getFieldIndexById h this (Field.id (h field)) = -1 ->
   getFieldIndexById h this' (Field.id (h field))
   = Z.of_nat (List.length (fields this))).
Proof.
  intros Hlive this'.
  assert (Hfields : fields this' = (fields this ++ [field])%list)
    by (unfold this', addField; now rewrite Hlive).
  split; [|split].
  - apply hasField_member. rewrite Hfields. apply in_or_app. right. now left.
  - intros fieldId Hfound. unfold getFieldIndexById in *. rewrite Hfields, findIndex_app.
    now destruct (Z.eqb_spec (findIndex (fun f => (Field.id (h f) =? fieldId)%string)
                                (fields this)) (-1)).
  - intros Hmissing. unfold getFieldIndexById in *.
    rewrite Hfields, findIndex_app, Hmissing. cbn. now rewrite String.eqb_refl.
Qed.

Lemma addField_then_lookup_witness :
  hasField Sample.fresh (snd (snd (addField Sample.fresh Sample.filled Sample.stray)))
    Sample.stray = true /\
  getFieldIndexById Sample.fresh
    (snd (snd (addField Sample.fresh Sample.filled Sample.stray))) "stray" = 3.
Proof.
  destruct (addField_then_lookup Sample.fresh Sample.filled Sample.stray)
    as (Hhas & _ & Hnew); [reflexivity|].
  split; [exact Hhas|]. apply Hnew. reflexivity.
Defined.

(** After a successful [addField] the listing is the former listing followed
    by the new field, whatever the options. *)
Theorem addField_then_getFields h this field options :
  Field.archived (h field) = false ->
  let r := addField h this field in
  getFields (fst (snd r)) (snd (snd r)) options
  = (getFields h this options ++ [field])%list.
Proof.
  intros Hlive r. unfold r, addField. rewrite Hlive. cbn [fst snd].
  unfold getFields. cbn [fields].
  destruct (includeArchived options) as [[|]|]; [reflexivity| |];
    rewrite filter_app; cbn; now rewrite Hlive.
Qed.

Lemma addField_then_getFields_witness :
  getFields (fst (snd (addField Sample.fresh Sample.filled Sample.stray)))
    (snd (snd (addField Sample.fresh Sample.filled Sample.stray))) noOptions
  = (getFields Sample.fresh Sample.filled noOptions ++ [Sample.stray])%list.
Proof.
  apply (addField_then_getFields Sample.fresh Sample.filled Sample.stray noOptions).
  reflexivity.
Defined.

(** [removeField] throws, and writes nothing, when no field of the sequence
    has the id of its argument; on a form without fields it always does. *)
Theorem removeField_not_found h this field :
  (forall member, In member (fields this) ->
                  Field.id (h member) <> Field.id (h field)) ->
  let r := removeField h this field in
  fst r = Throw ("Tried to archive Field(" ++ Field.id (h field)
                 ++ "), does not belong to Form(" ++ id this ++ ")") /\
  snd r = (h, this) /\
  Field.archived (fst (snd r) field) = Field.archived (h field).
Proof.
  intros Hno r.
  assert (Hhas : hasField h this field = false).
  { apply not_true_iff_false. rewrite hasField_iff.
    intros (m & Hin & Hid). now apply (Hno m). }
  unfold r, removeField. rewrite Hhas. cbn. repeat split.
Qed.

Lemma removeField_not_found_witness :
  fst (removeField Sample.fresh Sample.form Sample.email)
  = Throw "Tried to archive Field(email), does not belong to Form(form)" /\
  snd (removeField Sample.fresh Sample.form Sample.email) = (Sample.fresh, Sample.form) /\
  Field.archived (fst (snd (removeField Sample.fresh Sample.form Sample.email)) Sample.email)
  = Field.archived (Sample.fresh Sample.email).
Proof.
  apply (removeField_not_found Sample.fresh Sample.form Sample.email).
  intros member [].
Defined.

(** What [removeField] never writes: ids, form ids, and the archived flag of
    any object but its argument. *)
Lemma removeField_keeps h this field r :
  let h' := fst (snd (removeField h this field)) in
  Field.id (h' r) = Field.id (h r) /\
  Field.Data.formId (Field.data (h' r)) = Field.Data.formId (Field.data (h r)) /\
  (r <> field -> Field.archived (h' r) = Field.archived (h r)).
Proof.
  intros h'. unfold h', removeField.
  destruct (hasField h this field); cbn [negb fst snd]; [|now repeat split].
  rewrite sever_all. unfold upd.
  destruct (Nat.eqb r field) eqn:E.
  - apply Nat.eqb_eq in E. subst r.
    destruct (_ && _); repeat split; intros Hne; now contradiction Hne.
  - destruct (_ && _); repeat split.
Qed.

(** After a successful [removeField] no field of the form is linked to the
    id of the removed field, the removed field included. *)
Theorem removeField_severs_every_link h this F :
  (exists member, In member (fields this) /\ Field.id (h member) = Field.id (h F)) ->
  let h' := fst (snd (removeField h this F)) in
  forall G, In G (fields this) ->
    Field.Data.linkedFieldId (Field.data (h' G)) <> Some (Field.id (h' F)).
Proof.
  intros Hmem h' G HinG.
  apply hasField_iff in Hmem.
  destruct (removeField_store h this F Hmem) as [_ Hst].
  destruct (removeField_keeps h this F F) as (HidF & _). cbn zeta in HidF.
  fold h' in Hst, HidF. rewrite HidF, Hst. cbn zeta.
  rewrite (proj2 (existsb_eqb_In G (fields this)) HinG). cbn [andb].
  destruct (optIdEq _ _) eqn:Hlink; [discriminate|].
  intros Heq. apply optIdEq_iff in Heq. congruence.
Qed.

Lemma removeField_severs_every_link_witness :
  Field.Data.linkedFieldId
    (Field.data (fst (snd (removeField Sample.linked Sample.filled Sample.subscribe))
                   Sample.cadence))
  <> Some (Field.id (fst (snd (removeField Sample.linked Sample.filled Sample.subscribe))
                       Sample.subscribe)).
Proof.
  apply (removeField_severs_every_link Sample.linked Sample.filled Sample.subscribe).
  - exists Sample.subscribe. split; [right; now left | reflexivity].
  - right. right. now left.
Defined.

End FormMore.

Section FieldRecordFacts.
Import Field.
Implicit Types (f : t).

(** One turn of the archive-and-sever step of [removeField] on one object,
    and the same turn again. *)
Lemma archive_and_sever_twice (isF member : bool) (idF : ID) f :
  let turn x :=
    let before := if isF then setArchived x else x in
    if member && optIdEq (Data.linkedFieldId (data before)) idF
    then clearLinkedFieldCondition before
    else before in
  turn (turn f) = turn f.
Proof.
  destruct f as [[i fo fp n l d a ty rq link hv ms mi mb]].
  destruct isF, member; cbn; try reflexivity;
    destruct (optIdEq link idF) eqn:K; cbn; rewrite ?K; reflexivity.
Qed.
End FieldRecordFacts.

Section FormCascade.
Import Form.
Implicit Types (h : Field.heap) (this : t) (field : loc).

Lemma removeField_archives h this F :
  hasField h this F = true ->
  Field.archived (fst (snd (removeField h this F)) F) = true.
Proof.
  intros Hhas. destruct (removeField_store h this F Hhas) as [_ Hst].
  rewrite Hst, Nat.eqb_refl. cbn zeta. now destruct (_ && _).
Qed.

(** Removing a field a second time is accepted and changes nothing: the
    archived field is still found by id, and no condition is left to
    clear. *)
Theorem removeField_twice h this F :
  (exists member, In member (fields this) /\ Field.id (h member) = Field.id (h F)) ->
  let once := removeField h this F in
  let twice := removeField (fst (snd once)) (snd (snd once)) F in
  fst once = Ok tt /\
  fst twice = Ok tt /\
  snd (snd twice) = this /\
  forall r, fst (snd twice) r = fst (snd once) r.
Proof.
  intros Hmem once twice. apply hasField_iff in Hmem.
  destruct (removeField_store h this F Hmem) as [Heq Hst1]. fold once in Heq, Hst1.
  assert (Hids : forall r, Field.id (fst (snd once) r) = Field.id (h r))
    by (intros r; apply (removeField_keeps h this F r)).
  assert (Hmem1 : hasField (fst (snd once)) this F = true)
    by now rewrite (hasField_ids h _ this F Hids).
  assert (Hthis : snd (snd once) = this) by now rewrite Heq.
  unfold twice. rewrite Hthis.
  destruct (removeField_store (fst (snd once)) this F Hmem1) as [Heq2 Hst2].
  split; [now rewrite Heq|]. split; [now rewrite Heq2|]. split; [now rewrite Heq2|].
  intros r. rewrite Hst2, Hids, !Hst1.
  apply (archive_and_sever_twice (Nat.eqb r F) (existsb (Nat.eqb r) (fields this))
           (Field.id (h F)) (h r)).
Qed.

Lemma removeField_twice_witness :
  fst (removeField Sample.linked Sample.filled Sample.subscribe) = Ok tt /\
  fst (removeField
         (fst (snd (removeField Sample.linked Sample.filled Sample.subscribe)))
         (snd (snd (removeField Sample.linked Sample.filled Sample.subscribe)))
         Sample.subscribe) = Ok tt /\
  snd (snd (removeField
              (fst (snd (removeField Sample.linked Sample.filled Sample.subscribe)))
              (snd (snd (removeField Sample.linked Sample.filled Sample.subscribe)))
              Sample.subscribe)) = Sample.filled /\
  forall r,
    fst (snd (removeField
                (fst (snd (removeField Sample.linked Sample.filled Sample.subscribe)))
                (snd (snd (removeField Sample.linked Sample.filled Sample.subscribe)))
                Sample.subscribe)) r
    = fst (snd (removeField Sample.linked Sample.filled Sample.subscribe)) r.
Proof.
  apply (removeField_twice Sample.linked Sample.filled Sample.subscribe).
  exists Sample.subscribe. split; [right; now left | reflexivity].
Defined.

(** After a successful [removeField] the default listing is the former one
    without the removed field, and the full listing is unchanged. *)
Theorem removeField_then_getFields h this F :
  (exists member, In member (fields this) /\ Field.id (h member) = Field.id (h F)) ->
  let r := removeField h this F in
  getFields (fst (snd r)) (snd (snd r)) noOptions
  = without F (getFields h this noOptions) /\
  getFields (fst (snd r)) (snd (snd r)) {| includeArchived := Some true |}
  = getFields h this {| includeArchived := Some true |}.
Proof.
  intros Hmem r. apply hasField_iff in Hmem.
  destruct (removeField_store h this F Hmem) as [Heq _]. fold r in Heq.
  assert (Hthis : snd (snd r) = this) by now rewrite Heq.
  rewrite Hthis. split; [|reflexivity].
  unfold getFields, without. cbn [includeArchived noOptions].
  rewrite filter_filter. apply filter_same. intros x _.
  destruct (Nat.eqb x F) eqn:E.
  - apply Nat.eqb_eq in E. subst x. unfold r.
    rewrite (removeField_archives h this F Hmem). cbn. now rewrite andb_false_r.
  - apply Nat.eqb_neq in E.
    destruct (removeField_keeps h this F x) as (_ & _ & Harch).
    unfold r. rewrite (Harch E). cbn. now rewrite andb_true_r.
Qed.

Lemma removeField_then_getFields_witness :
  getFields (fst (snd (removeField Sample.linked Sample.filled Sample.subscribe)))
    (snd (snd (removeField Sample.linked Sample.filled Sample.subscribe))) noOptions
  = without Sample.subscribe (getFields Sample.linked Sample.filled noOptions) /\
  getFields (fst (snd (removeField Sample.linked Sample.filled Sample.subscribe)))
    (snd (snd (removeField Sample.linked Sample.filled Sample.subscribe)))
    {| includeArchived := Some true |}
  = getFields Sample.linked Sample.filled {| includeArchived := Some true |}.
Proof.
  apply (removeField_then_getFields Sample.linked Sample.filled Sample.subscribe).
  exists Sample.subscribe. split; [right; now left | reflexivity].
Defined.

(** A field linked to itself loses its condition when it is removed. *)
Lemma removeField_own_condition_witness :
  Field.conditionOf
    (fst (snd (removeField
                 (snd (Field.setLinkedFieldCondition Sample.fresh Sample.email Sample.email
                         (Sample.condition Absent (JsString "x"))))
                 Sample.filled Sample.email)) Sample.email)
  = Field.noCondition.
Proof.
  exact (removeField_own_condition
           (snd (Field.setLinkedFieldCondition Sample.fresh Sample.email Sample.email
                   (Sample.condition Absent (JsString "x"))))
           Sample.filled Sample.email (or_introl eq_refl)).
Defined.

(** The all-or-nothing shape of conditions is an invariant of the store:
    [setLinkedFieldCondition] and [removeField] keep it, whether they return
    or throw. *)
Theorem conditionCoherent_invariant h :
  (forall r, conditionCoherent (h r)) ->
  (forall (subject linkedField : loc) c r,
     conditionCoherent (snd (Field.setLinkedFieldCondition h subject linkedField c) r)) /\
  (forall form F r,
     conditionCoherent (fst (snd (removeField h form F)) r)).
Proof.
  intros Hinv. split.
  - intros subject l c r. unfold Field.setLinkedFieldCondition.
    destruct (Field.conditionRejected _ _); cbn [snd]; [apply Hinv|].
    unfold upd. destruct (Nat.eqb r subject); [|apply Hinv].
    unfold conditionCoherent. cbn. discriminate.
  - intros form F r. unfold removeField.
    destruct (hasField h form F); cbn [negb fst snd]; [|apply Hinv].
    rewrite sever_all.
    destruct (_ && _); [unfold conditionCoherent; reflexivity|].
    unfold upd. destruct (Nat.eqb r F) eqn:E; [|apply Hinv].
    apply Nat.eqb_eq in E. subst r. exact (Hinv F).
Qed.

Lemma conditionCoherent_invariant_witness :
  conditionCoherent
    (fst (snd (removeField
                 (snd (Field.setLinkedFieldCondition Sample.fresh Sample.cadence
                         Sample.subscribe (Sample.condition Absent (JsBoolean true))))
                 Sample.filled Sample.subscribe)) Sample.cadence).
Proof.
  assert (Hfresh : forall r, conditionCoherent (Sample.fresh r))
    by (intros [|[|[|[|r']]]]; unfold conditionCoherent; reflexivity).
  destruct (conditionCoherent_invariant Sample.fresh Hfresh) as [Hset _].
  destruct (conditionCoherent_invariant
              (snd (Field.setLinkedFieldCondition Sample.fresh Sample.cadence
                      Sample.subscribe (Sample.condition Absent (JsBoolean true))))
              (Hset Sample.cadence Sample.subscribe
                 (Sample.condition Absent (JsBoolean true)))) as [_ Hremove].
  exact (Hremove Sample.filled Sample.subscribe Sample.cadence).
Defined.

(** A constructed field is accepted by [addField] exactly when it was
    constructed without [archived] or with [archived: false]; it is then the
    last field listed. *)
Theorem constructed_field_is_accepted h this (r : loc) (data : Constructor.FieldData) :
  let h' := upd h r (Constructor.Field data) in
  let added := addField h' this r in
  (fst added = Ok tt <-> Constructor.f_archived data <> Some true) /\
  (Constructor.f_archived data <> Some true ->
   getFields h' (snd (snd added)) noOptions
   = (getFields h' this noOptions ++ [r])%list) /\
  (Constructor.f_archived data = Some true -> snd added = (h', this)).
Proof.
  intros h' added. unfold added, addField, h'. rewrite upd_same.
  unfold Field.archived, Constructor.Field. cbn [Field.data Field.Data.archived].
  destruct (Constructor.f_archived data) as [[|]|]; cbn [Constructor.archivedOrDefault fst snd].
  - split; [split; [discriminate | intros Hne; now contradiction Hne]|].
    split; [intros Hne; now contradiction Hne | reflexivity].
  - split; [split; [discriminate | reflexivity]|].
    split; [|discriminate]. intros _.
    unfold getFields. cbn [includeArchived noOptions fields].
    rewrite filter_app. cbn. now rewrite upd_same.
  - split; [split; [discriminate | reflexivity]|].
    split; [|discriminate]. intros _.
    unfold getFields. cbn [includeArchived noOptions fields].
    rewrite filter_app. cbn. now rewrite upd_same.
Qed.

End FormCascade.

Section ConstructedField.
Import Form.

Lemma constructed_field_is_accepted_witness :
  getFields (upd Sample.fresh 5%nat (Constructor.Field Sample.draft))
    (snd (snd (addField (upd Sample.fresh 5%nat (Constructor.Field Sample.draft))
                 Sample.filled 5%nat))) noOptions
  = (getFields (upd Sample.fresh 5%nat (Constructor.Field Sample.draft))
       Sample.filled noOptions ++ [5%nat])%list.
Proof.
  apply (proj1 (proj2 (constructed_field_is_accepted Sample.fresh Sample.filled 5%nat
                         Sample.draft))).
  discriminate.
Defined.

End ConstructedField.

(** ** fieldTypes/textField.ts, continued *)

Section TextFieldMore.
Import TextField.

Lemma isValidValue_true_iff (this : t) (value : string) :
  isValidValue this value = true <->
  (forall m, minLength (properties this) = Some m -> m <= length value) /\
  (forall M, maxLength (properties this) = Some M -> length value <= M).
Proof.
  unfold isValidValue.
  destruct (minLength (properties this)) as [m|];
    destruct (maxLength (properties this)) as [M|];
    try destruct (Z.ltb_spec (length value) m);
    try destruct (Z.gtb_spec (length value) M);
    (split;
     [ intros Hres; try discriminate Hres;
       split; intros k Hk; try discriminate Hk; injection Hk as <-; lia
     | intros [Hmin Hmax]; try reflexivity;
       try (specialize (Hmin _ eq_refl)); try (specialize (Hmax _ eq_refl)); lia ]).
Qed.

(** When [minLength] exceeds [maxLength] no value is valid, so every
    [setDefault] throws and the default stays as it was. *)
Theorem contradictory_bounds_reject_everything (this : t) m M :
  minLength (properties this) = Some m ->
  maxLength (properties this) = Some M ->
  M < m ->
  forall value,
    isValidValue this value = false /\
    setDefault this value = (Throw setDefaultError, this).
Proof.
  intros Hm HM Hlt value.
  assert (Hinv : isValidValue this value = false).
  { apply not_true_iff_false. rewrite isValidValue_true_iff. intros [Hmin Hmax].
    specialize (Hmin _ Hm). specialize (Hmax _ HM). lia. }
  split; [exact Hinv|]. unfold setDefault. now rewrite Hinv.
Qed.

Lemma contradictory_bounds_reject_everything_witness :
  isValidValue Sample.impossibleText "abc" = false /\
  setDefault Sample.impossibleText "abc" = (Throw setDefaultError, Sample.impossibleText).
Proof.
  apply (contradictory_bounds_reject_everything Sample.impossibleText 5 2);
    [reflexivity | reflexivity | lia].
Defined.

(** Validity depends on the length alone and the valid lengths form an
    interval: a value whose length lies between the lengths of two valid
    values is valid. *)
Theorem isValidValue_between (this : t) (shorter value longer : string) :
  isValidValue this shorter = true ->
  isValidValue this longer = true ->
  length shorter <= length value <= length longer ->
  isValidValue this value = true.
Proof.
  rewrite !isValidValue_true_iff. intros [Hmin _] [_ Hmax] Hbetween. split.
  - intros m Hm. specialize (Hmin m Hm). lia.
  - intros M HM. specialize (Hmax M HM). lia.
Qed.

Lemma isValidValue_between_witness :
  isValidValue Sample.shortText "abcde" = true.
Proof.
  apply (isValidValue_between Sample.shortText "abc" "abcde" "abcdefgh");
    [reflexivity | reflexivity | cbn; lia].
Defined.

(** [setDefault] keeps the default valid: if the stored default, when there
    is one, passes the validation of the field, it still does after the
    call, whether the call returned or threw. *)
Theorem setDefault_keeps_default_valid (this : t) (value : string) :
  defaultIsValid this -> defaultIsValid (snd (setDefault this value)).
Proof.
  intros Hinv. unfold setDefault.
  destruct (isValidValue this value) eqn:Hv; cbn [negb snd]; [|exact Hinv].
  unfold defaultIsValid. cbn. exact Hv.
Qed.

Lemma setDefault_keeps_default_valid_witness :
  defaultIsValid (snd (setDefault Sample.shortText "abcd")) /\
  defaultIsValid (snd (setDefault (snd (setDefault Sample.shortText "abcd")) "x")).
Proof.
  assert (H0 : defaultIsValid Sample.shortText) by exact I.
  pose proof (setDefault_keeps_default_valid Sample.shortText "abcd" H0) as H1.
  split; [exact H1|].
  exact (setDefault_keeps_default_valid _ "x" H1).
Defined.

End TextFieldMore.

(** ** fieldTypes/fileField.ts *)

Section FileFieldFacts.
Import FileField.

(** A file field without [maxSizeBytes] accepts every buffer.  With a limit,
    a buffer no longer than an accepted one is accepted, the empty buffer is
    accepted exactly when the limit is not negative, and the extension and
    mime type lists play no part. *)
Theorem FileField_isValidValue_by_length (this : t) (value : Buffer) :
  (maxSizeBytes (properties this) = None -> isValidValue this value = true) /\
  (forall smaller,
     isValidValue this value = true ->
     byteLength smaller <= byteLength value ->
     isValidValue this smaller = true) /\
  (forall m, maxSizeBytes (properties this) = Some m ->
     (isValidValue this value = true <-> byteLength value <= m) /\
     (isValidValue this [] = true <-> 0 <= m)) /\
  (forall extensions mimeTypes,
     isValidValue {| data := data this;
                     properties :=
                       {| maxSizeBytes := maxSizeBytes (properties this);
                          validExtensions := extensions;
                          validMimeTypes := mimeTypes |} |} value
     = isValidValue this value).
Proof.
  unfold isValidValue. split; [|split; [|split]].
  - now intros ->.
  - intros smaller. destruct (maxSizeBytes (properties this)) as [m|]; [|reflexivity].
    rewrite !Z.leb_le. lia.
  - intros m ->. rewrite !Z.leb_le. split; [reflexivity|]. cbn. reflexivity.
  - reflexivity.
Qed.

Lemma FileField_isValidValue_by_length_witness :
  isValidValue (Sample.fileField None) (repeat Byte.x00 11) = true /\
  isValidValue (Sample.fileField (Some 10)) (repeat Byte.x00 3) = true /\
  (isValidValue (Sample.fileField (Some 10)) (repeat Byte.x00 11) = true
   <-> byteLength (repeat Byte.x00 11) <= 10).
Proof.
  split; [|split].
  - apply (proj1 (FileField_isValidValue_by_length (Sample.fileField None)
                    (repeat Byte.x00 11))).
    reflexivity.
  - apply (proj1 (proj2 (FileField_isValidValue_by_length (Sample.fileField (Some 10))
                           (repeat Byte.x00 10))) (repeat Byte.x00 3)).
    + reflexivity.
    + cbn. lia.
  - apply (proj1 (proj2 (proj2 (FileField_isValidValue_by_length
                                  (Sample.fileField (Some 10)) (repeat Byte.x00 11)))) 10).
    reflexivity.
Defined.

End FileFieldFacts.

(** ** fieldTypes/selectField.ts, continued *)

Section SelectFieldMore.
Import SelectField.
Implicit Types (h : SelectFieldChoice.heap) (this : t) (choice : loc).

Lemma getChoiceIndexById_ids h h' this choiceId :
  (forall r, SelectFieldChoice.id (h' r) = SelectFieldChoice.id (h r)) ->
  getChoiceIndexById h' this choiceId = getChoiceIndexById h this choiceId.
Proof.
  intros Hid. apply findIndex_ext. intros x _. now rewrite Hid.
Qed.

Lemma hasChoice_ids h h' this choice :
  (forall r, SelectFieldChoice.id (h' r) = SelectFieldChoice.id (h r)) ->
  hasChoice h' this choice = hasChoice h this choice.
Proof.
  intros Hid. unfold hasChoice. now rewrite Hid, (getChoiceIndexById_ids h h' this _ Hid).
Qed.

Lemma removeChoice_store h this choice :
  hasChoice h this choice = true ->
  removeChoice h this choice
  = (Ok tt, (upd h choice (SelectFieldChoice.setArchived (h choice)), this)).
Proof. intros Hhas. unfold removeChoice. now rewrite Hhas. Qed.

Lemma removeChoice_id h this choice r :
  SelectFieldChoice.id (fst (snd (removeChoice h this choice)) r)
  = SelectFieldChoice.id (h r).
Proof.
  unfold removeChoice. destruct (hasChoice h this choice); cbn [negb fst snd];
    [|reflexivity].
  unfold upd. destruct (Nat.eqb r choice) eqn:E; [|reflexivity].
  apply Nat.eqb_eq in E. now subst.
Qed.

(** The three outcomes of [setDefaultChoice]: it throws when no choice of
    the sequence has the id, it throws when the object it was handed is
    archived, and otherwise it stores the id as the default; it writes
    nothing else. *)
Theorem setDefaultChoice_outcome h this choice :
  let r := setDefaultChoice h this choice in
  ((forall member, In member (choices this) ->
      SelectFieldChoice.id (h member) <> SelectFieldChoice.id (h choice)) ->
   (exists message, fst r = Throw message) /\ snd r = (h, this)) /\
  (SelectFieldChoice.archived (h choice) = true ->
   (exists message, fst r = Throw message) /\ snd r = (h, this)) /\
  ((exists member, In member (choices this) /\
      SelectFieldChoice.id (h member) = SelectFieldChoice.id (h choice)) ->
   SelectFieldChoice.archived (h choice) = false ->
   fst r = Ok tt /\
   fst (snd r) = h /\
   defaultChoiceId (properties (snd (snd r))) = Some (SelectFieldChoice.id (h choice)) /\
   choices (snd (snd r)) = choices this /\
   data (snd (snd r)) = data this).
Proof.
  intros r. unfold r, setDefaultChoice. split; [|split].
  - intros Hno. apply hasChoice_false_iff in Hno. unfold hasChoice in Hno.
    apply negb_false_iff in Hno. rewrite Hno. cbn. split; [eexists|]; reflexivity.
  - intros Harch. rewrite Harch.
    destruct (_ =? -1); cbn; (split; [eexists|]; reflexivity).
  - intros Hmem Hlive. apply hasChoice_iff in Hmem. unfold hasChoice in Hmem.
    apply negb_true_iff in Hmem. rewrite Hmem, Hlive. cbn. repeat split.
Qed.

Lemma setDefaultChoice_outcome_witness :
  (* an id that is not among the choices *)
  (exists message,
     fst (setDefaultChoice Sample.choiceObjectsWithArchived
            (Sample.selectField [0; 1]%nat) 2%nat) = Throw message) /\
  (* an archived choice *)
  (exists message,
     fst (setDefaultChoice Sample.choiceObjectsWithArchived
            (Sample.selectField [0; 1]%nat) 1%nat) = Throw message) /\
  (* a live choice *)
  defaultChoiceId
    (properties (snd (snd (setDefaultChoice Sample.choiceObjectsWithArchived
                             (Sample.selectField [0; 1]%nat) 0%nat))))
  = Some "every_day".
Proof.
  split; [|split].
  - apply (proj1 (setDefaultChoice_outcome Sample.choiceObjectsWithArchived
                    (Sample.selectField [0; 1]%nat) 2%nat)).
    intros member [<- | [<- | []]]; vm_compute; discriminate.
  - apply (proj1 (proj2 (setDefaultChoice_outcome Sample.choiceObjectsWithArchived
                           (Sample.selectField [0; 1]%nat) 1%nat))).
    reflexivity.
  - apply (proj2 (proj2 (setDefaultChoice_outcome Sample.choiceObjectsWithArchived
                           (Sample.selectField [0; 1]%nat) 0%nat))).
    + exists 0%nat. split; [now left | reflexivity].
    + reflexivity.
Defined.

(** [setDefaultChoice] is idempotent: a second call with the same choice has
    the outcome of the first and leaves the state the first left. *)
Theorem setDefaultChoice_twice h this choice :
  let once := setDefaultChoice h this choice in
  setDefaultChoice (fst (snd once)) (snd (snd once)) choice = once.
Proof.
  intros once. unfold once, setDefaultChoice.
  destruct (getChoiceIndexById h this (SelectFieldChoice.id (h choice)) =? -1) eqn:Hidx;
    cbn [fst snd]; [now rewrite Hidx|].
  destruct (SelectFieldChoice.archived (h choice)) eqn:Harch;
    cbn [fst snd]; [now rewrite Hidx, Harch|].
  unfold getChoiceIndexById in *. cbn [choices]. now rewrite Hidx, Harch.
Qed.

(** [removeChoice] does not touch the default: once a choice of the field is
    the default and is then removed, the default still names it although it
    is archived, and setting it as the default again is refused. *)
Theorem default_survives_removeChoice h this choice :
  In choice (choices this) ->
  SelectFieldChoice.archived (h choice) = false ->
  let set := setDefaultChoice h this choice in
  let removed := removeChoice (fst (snd set)) (snd (snd set)) choice in
  let again := setDefaultChoice (fst (snd removed)) (snd (snd removed)) choice in
  fst set = Ok tt /\
  fst removed = Ok tt /\
  defaultChoiceId (properties (snd (snd removed)))
  = Some (SelectFieldChoice.id (h choice)) /\
  SelectFieldChoice.archived (fst (snd removed) choice) = true /\
  (exists message, fst again = Throw message) /\
  snd again = snd removed.
Proof.
  intros Hin Hlive set removed again.
  assert (Hhas : hasChoice h this choice = true)
    by (apply hasChoice_iff; now exists choice).
  assert (Hidx : (getChoiceIndexById h this (SelectFieldChoice.id (h choice)) =? -1) = false)
    by (unfold hasChoice in Hhas; now apply negb_true_iff in Hhas).
  assert (Hset : set = (Ok tt,
            (h, {| data := data this;
                   properties :=
                     {| defaultChoiceId := Some (SelectFieldChoice.id (h choice)) |};
                   choices := choices this |})))
    by (unfold set, setDefaultChoice; now rewrite Hidx, Hlive).
  set (this' := {| data := data this;
                   properties :=
                     {| defaultChoiceId := Some (SelectFieldChoice.id (h choice)) |};
                   choices := choices this |}) in *.
  assert (Hhas' : hasChoice h this' choice = true)
    by (apply hasChoice_iff; now exists choice).
  assert (Hremoved : removed
            = (Ok tt, (upd h choice (SelectFieldChoice.setArchived (h choice)), this')))
    by (unfold removed; rewrite Hset; cbn [fst snd]; now apply removeChoice_store).
  split; [now rewrite Hset|]. split; [now rewrite Hremoved|].
  split; [now rewrite Hremoved|].
  split; [rewrite Hremoved; cbn [fst snd]; now rewrite upd_same|].
  assert (Harch : SelectFieldChoice.archived
                    (upd h choice (SelectFieldChoice.setArchived (h choice)) choice) = true)
    by now rewrite upd_same.
  unfold again. rewrite Hremoved. cbn [fst snd].
  unfold setDefaultChoice. rewrite Harch. clear Hidx.
  destruct (getChoiceIndexById _ _ _ =? -1); cbn [fst snd];
    (split; [eexists|]; reflexivity).
Qed.

Lemma default_survives_removeChoice_witness :
  let set := setDefaultChoice Sample.choiceObjects (Sample.selectField [0; 1]%nat) 0%nat in
  let removed := removeChoice (fst (snd set)) (snd (snd set)) 0%nat in
  let again := setDefaultChoice (fst (snd removed)) (snd (snd removed)) 0%nat in
  fst set = Ok tt /\
  fst removed = Ok tt /\
  defaultChoiceId (properties (snd (snd removed)))
  = Some (SelectFieldChoice.id (Sample.choiceObjects 0%nat)) /\
  SelectFieldChoice.archived (fst (snd removed) 0%nat) = true /\
  (exists message, fst again = Throw message) /\
  snd again = snd removed.
Proof.
  apply (default_survives_removeChoice Sample.choiceObjects
           (Sample.selectField [0; 1]%nat) 0%nat);
    [now left | reflexivity].
Defined.

(** Without [includeArchived] (also with [includeArchived: false]),
    [getChoices] returns the choice sequence with the archived choices
    dropped and the order kept; with [includeArchived: true] it returns the
    whole sequence. *)
Theorem getChoices_live_in_order h this :
  let live := getChoices h this {| includeArchived := None |} in
  subseq live (choices this) /\
  (forall c, In c live <-> In c (choices this) /\ SelectFieldChoice.archived (h c) = false) /\
  (forall c, occurrences c live
             = if SelectFieldChoice.archived (h c) then 0%nat
               else occurrences c (choices this)) /\
  getChoices h this {| includeArchived := Some false |} = live /\
  getChoices h this {| includeArchived := Some true |} = choices this.
Proof.
  intros live.
  assert (Hlive : live = filter (fun c => negb (SelectFieldChoice.archived (h c)))
                                (choices this)) by reflexivity.
  split; [rewrite Hlive; apply subseq_filter|].
  split; [|split; [|split; reflexivity]].
  - intros c. rewrite Hlive, filter_In, negb_true_iff. reflexivity.
  - intros c. rewrite Hlive, occurrences_filter.
    now destruct (SelectFieldChoice.archived (h c)).
Qed.

(** [addChoice] refuses an archived choice and writes nothing; it returns a
    live choice after appending it: the listing is the former listing
    followed by the choice, whatever the options, and the choice is found. *)
Theorem addChoice_then_getChoices h this choice options :
  let r := addChoice h this choice in
  (SelectFieldChoice.archived (h choice) = true ->
   (exists message, fst r = Throw message) /\ snd r = (h, this)) /\
  (SelectFieldChoice.archived (h choice) = false ->
   fst r = Ok choice /\
   fst (snd r) = h /\
   getChoices (fst (snd r)) (snd (snd r)) options
   = (getChoices h this options ++ [choice])%list /\
   hasChoice (fst (snd r)) (snd (snd r)) choice = true /\
   properties (snd (snd r)) = properties this).
Proof.
  intros r. unfold r, addChoice. split; intros Harch; rewrite Harch; cbn [fst snd].
  - split; [eexists|]; reflexivity.
  - split; [reflexivity|]. split; [reflexivity|]. split; [|split; [|reflexivity]].
    + unfold getChoices. cbn [choices].
      destruct (includeArchived options) as [[|]|]; [reflexivity| |];
        rewrite filter_app; cbn; now rewrite Harch.
    + apply hasChoice_iff. exists choice. split; [|reflexivity].
      cbn. apply in_or_app. right. now left.
Qed.

Lemma addChoice_then_getChoices_witness :
  (exists message,
     fst (addChoice Sample.choiceObjectsWithArchived (Sample.selectField [0%nat]) 1%nat)
     = Throw message) /\
  getChoices (fst (snd (addChoice Sample.choiceObjectsWithArchived
                          (Sample.selectField [0; 1]%nat) 2%nat)))
    (snd (snd (addChoice Sample.choiceObjectsWithArchived
                 (Sample.selectField [0; 1]%nat) 2%nat))) {| includeArchived := None |}
  = [0; 2]%nat.
Proof.
  split.
  - apply (proj1 (addChoice_then_getChoices Sample.choiceObjectsWithArchived
                    (Sample.selectField [0%nat]) 1%nat {| includeArchived := None |})).
    reflexivity.
  - destruct (proj2 (addChoice_then_getChoices Sample.choiceObjectsWithArchived
                       (Sample.selectField [0; 1]%nat) 2%nat {| includeArchived := None |}))
      as (_ & _ & Hlist & _); [reflexivity|].
    exact Hlist.
Defined.

(** After a successful [removeChoice] the default listing is the former one
    without the object that was passed, and the full listing is unchanged.
    When that object is not itself in the sequence, the default listing is
    unchanged too. *)
Theorem removeChoice_then_getChoices h this choice :
  (exists member, In member (choices this) /\
     SelectFieldChoice.id (h member) = SelectFieldChoice.id (h choice)) ->
  let r := removeChoice h this choice in
  getChoices (fst (snd r)) (snd (snd r)) {| includeArchived := None |}
  = without choice (getChoices h this {| includeArchived := None |}) /\
  getChoices (fst (snd r)) (snd (snd r)) {| includeArchived := Some true |}
  = getChoices h this {| includeArchived := Some true |} /\
  (~ In choice (choices this) ->
   getChoices (fst (snd r)) (snd (snd r)) {| includeArchived := None |}
   = getChoices h this {| includeArchived := None |}).
Proof.
  intros Hmem r. apply hasChoice_iff in Hmem.
  unfold r. rewrite (removeChoice_store h this choice Hmem). cbn [fst snd].
  unfold getChoices, without. cbn [includeArchived].
  split; [|split; [reflexivity|]].
  - rewrite filter_filter. apply filter_same. intros x _. unfold upd.
    destruct (Nat.eqb x choice); cbn; [now rewrite andb_false_r | now rewrite andb_true_r].
  - intros Hnotin. apply filter_same. intros x Hx. unfold upd.
    destruct (Nat.eqb x choice) eqn:E; [|reflexivity].
    apply Nat.eqb_eq in E. subst x. contradiction.
Qed.

Lemma removeChoice_then_getChoices_witness :
  getChoices (fst (snd (removeChoice Sample.choiceObjects (Sample.selectField [0; 1]%nat) 0%nat)))
    (snd (snd (removeChoice Sample.choiceObjects (Sample.selectField [0; 1]%nat) 0%nat)))
    {| includeArchived := None |}
  = without 0%nat (getChoices Sample.choiceObjects (Sample.selectField [0; 1]%nat)
                     {| includeArchived := None |}) /\
  getChoices (fst (snd (removeChoice Sample.choiceObjects (Sample.selectField [0; 1]%nat) 2%nat)))
    (snd (snd (removeChoice Sample.choiceObjects (Sample.selectField [0; 1]%nat) 2%nat)))
    {| includeArchived := None |}
  = getChoices Sample.choiceObjects (Sample.selectField [0; 1]%nat)
      {| includeArchived := None |}.
Proof.
  split.
  - apply (removeChoice_then_getChoices Sample.choiceObjects
             (Sample.selectField [0; 1]%nat) 0%nat).
    exists 0%nat. split; [now left | reflexivity].
  - destruct (removeChoice_then_getChoices Sample.choiceObjects
                (Sample.selectField [0; 1]%nat) 2%nat) as (_ & _ & Hsame).
    + exists 0%nat. split; [now left | reflexivity].
    + apply Hsame. intros [E | [E | []]]; discriminate E.
Defined.

(** Removing a choice a second time is accepted and changes nothing. *)
Theorem removeChoice_twice h this choice :
  (exists member, In member (choices this) /\
     SelectFieldChoice.id (h member) = SelectFieldChoice.id (h choice)) ->
  let once := removeChoice h this choice in
  let twice := removeChoice (fst (snd once)) (snd (snd once)) choice in
  fst once = Ok tt /\
  fst twice = Ok tt /\
  snd (snd twice) = this /\
  forall r, fst (snd twice) r = fst (snd once) r.
Proof.
  intros Hmem once twice. apply hasChoice_iff in Hmem.
  assert (Hmem1 : hasChoice (fst (snd once)) this choice = true).
  { rewrite (hasChoice_ids h (fst (snd once)) this choice); [exact Hmem|].
    intros r. apply removeChoice_id. }
  pose proof (removeChoice_store h this choice Hmem) as Honce. fold once in Honce.
  unfold twice. rewrite Honce in *. cbn [fst snd] in *.
  rewrite (removeChoice_store _ this choice Hmem1). cbn [fst snd].
  repeat split. intros r. rewrite (upd_same h choice). unfold upd.
  destruct (Nat.eqb r choice) eqn:E; reflexivity.
Qed.

Lemma removeChoice_twice_witness :
  let once := removeChoice Sample.choiceObjects (Sample.selectField [0; 1]%nat) 0%nat in
  let twice := removeChoice (fst (snd once)) (snd (snd once)) 0%nat in
  fst once = Ok tt /\
  fst twice = Ok tt /\
  snd (snd twice) = Sample.selectField [0; 1]%nat /\
  forall r, fst (snd twice) r = fst (snd once) r.
Proof.
  apply (removeChoice_twice Sample.choiceObjects (Sample.selectField [0; 1]%nat) 0%nat).
  exists 0%nat. split; [now left | reflexivity].
Defined.

(** A select field as constructed has no choices: nothing is listed and
    every [removeChoice] and [setDefaultChoice] throws.  A choice constructed
    without [archived], or with [archived: false], is accepted by [addChoice]
    and is then the one choice listed; one constructed with [archived: true]
    is refused. *)
Theorem constructed_choice_is_listed
    h (r : loc) fieldData properties (data : Constructor.SelectFieldChoiceData) options :
  let this := Constructor.SelectField fieldData properties in
  let h' := upd h r (Constructor.SelectFieldChoice data) in
  let added := addChoice h' this r in
  getChoices h this options = [] /\
  (forall c, (exists message, fst (removeChoice h this c) = Throw message) /\
             (exists message, fst (setDefaultChoice h this c) = Throw message)) /\
  (Constructor.c_archived data <> Some true ->
   fst added = Ok r /\
   getChoices (fst (snd added)) (snd (snd added)) options = [r] /\
   getChoiceIndexById (fst (snd added)) (snd (snd added)) (Constructor.c_id data) = 0) /\
  (Constructor.c_archived data = Some true ->
   (exists message, fst added = Throw message) /\ snd added = (h', this)).
Proof.
  intros this h' added. split; [|split; [|split]].
  - unfold getChoices. now destruct (includeArchived options) as [[|]|].
  - intros c. split; eexists; reflexivity.
  - intros Hlive.
    assert (Harch : SelectFieldChoice.archived (h' r) = false).
    { unfold h'. rewrite upd_same. cbn.
      destruct (Constructor.c_archived data) as [[|]|]; [now contradiction Hlive| |];
        reflexivity. }
    unfold added, addChoice. rewrite Harch. cbn [fst snd].
    split; [reflexivity|]. split.
    + unfold getChoices. cbn. rewrite Harch. now destruct (includeArchived options) as [[|]|].
    + unfold getChoiceIndexById, findIndex, h'. cbn. rewrite upd_same. cbn.
      now rewrite String.eqb_refl.
  - intros Harchived. unfold added, addChoice, h'. rewrite upd_same. cbn.
    rewrite Harchived. cbn. split; [eexists|]; reflexivity.
Qed.

Lemma constructed_choice_is_listed_witness :
  fst (addChoice (upd Sample.choiceObjects 7%nat (Constructor.SelectFieldChoice Sample.everyDay))
         (Constructor.SelectField (Field.data (Sample.field "cadence" "form" Field.select))
            {| defaultChoiceId := None |}) 7%nat) = Ok 7%nat.
Proof.
  apply (proj1 (proj2 (proj2 (constructed_choice_is_listed Sample.choiceObjects 7%nat
                                (Field.data (Sample.field "cadence" "form" Field.select))
                                {| defaultChoiceId := None |} Sample.everyDay
                                {| includeArchived := None |})))).
  discriminate.
Defined.

End SelectFieldMore.
